(** * ionic-super-tabs: a shallow embedding of the tab synchronisation core

    The model follows [src/core/src/super-tabs/super-tabs.component.tsx]
    (the [super-tabs] root and the [super-tabs-container] component) and
    the helpers of [src/core/src/utils.ts].

    JavaScript numbers are modelled by [JsNum.num]: exact rationals for the
    finite values, together with [NaN] and the two infinities, so that the
    divisions of the source can be followed when a divisor is zero.
    Signed zero is not modelled (there is a single zero, which behaves as
    [+0]); rounding errors of binary floating point are not modelled
    either: the finite operations are exact. *)

From Stdlib Require Import QArith Qround Qabs ZArith Lia Lqa String List Bool.
Import ListNotations.

(* ------------------------------------------------------------------ *)
(** ** JavaScript numbers *)

Module JsNum.

Inductive num : Type :=
| Fin (q : Q)
| NaN
| PosInf
| NegInf.

Definition isNaN (x : num) : bool :=
  match x with NaN => true | _ => false end.

Definition is_finite (x : num) : bool :=
  match x with Fin _ => true | _ => false end.

(** Sign of a rational: -1, 0 or 1. *)
Definition qsign (q : Q) : Z :=
  if Qeq_bool q 0 then 0%Z else if Qle_bool 0 q then 1%Z else (-1)%Z.

(** Sign of a non-NaN number. *)
Definition sgn (x : num) : Z :=
  match x with
  | Fin q => qsign q
  | PosInf => 1%Z
  | NegInf => (-1)%Z
  | NaN => 0%Z
  end.

(** An infinity of the given sign; a zero sign ([0 * Infinity],
    [0 / 0]) gives [NaN]. *)
Definition mkInf (s : Z) : num :=
  if (0 <? s)%Z then PosInf else if (s <? 0)%Z then NegInf else NaN.

Definition neg (x : num) : num :=
  match x with
  | Fin q => Fin (- q)
  | PosInf => NegInf
  | NegInf => PosInf
  | NaN => NaN
  end.

Definition add (x y : num) : num :=
  match x, y with
  | Fin a, Fin b => Fin (a + b)
  | NaN, _ | _, NaN => NaN
  | PosInf, NegInf | NegInf, PosInf => NaN
  | PosInf, _ | _, PosInf => PosInf
  | NegInf, _ | _, NegInf => NegInf
  end.

Definition sub (x y : num) : num := add x (neg y).

Definition mul (x y : num) : num :=
  match x, y with
  | Fin a, Fin b => Fin (a * b)
  | NaN, _ | _, NaN => NaN
  | _, _ => mkInf (sgn x * sgn y)
  end.

Definition div (x y : num) : num :=
  match x, y with
  | Fin a, Fin b => if Qeq_bool b 0 then mkInf (qsign a) else Fin (a / b)
  | NaN, _ | _, NaN => NaN
  | Fin _, _ => Fin 0
  | _, Fin b => if Qeq_bool b 0 then x else mkInf (sgn x * qsign b)
  | _, _ => NaN
  end.

(** [x < y]; every comparison with [NaN] is false. *)
Definition ltb (x y : num) : bool :=
  match x, y with
  | NaN, _ | _, NaN => false
  | Fin a, Fin b => negb (Qle_bool b a)
  | NegInf, NegInf => false
  | NegInf, _ => true
  | PosInf, _ => false
  | Fin _, PosInf => true
  | Fin _, NegInf => false
  end.

Definition leb (x y : num) : bool :=
  if isNaN x || isNaN y then false else negb (ltb y x).

(** [===] on numbers. *)
Definition strict_eq (x y : num) : bool :=
  match x, y with
  | Fin a, Fin b => Qeq_bool a b
  | PosInf, PosInf | NegInf, NegInf => true
  | _, _ => false
  end.

(** [Math.max(x, y)] and [Math.min(x, y)]. *)
Definition max (x y : num) : num :=
  if isNaN x || isNaN y then NaN else if ltb x y then y else x.

Definition min (x y : num) : num :=
  if isNaN x || isNaN y then NaN else if ltb y x then y else x.

(** [Math.round]: the nearest integer, halves rounded up. *)
Definition round (x : num) : num :=
  match x with
  | Fin q => Fin (inject_Z (Qfloor (q + (1 # 2))))
  | _ => x
  end.

(** [Math.floor] and [Math.ceil]. *)
Definition floor (x : num) : num :=
  match x with
  | Fin q => Fin (inject_Z (Qfloor q))
  | _ => x
  end.

Definition ceil (x : num) : num :=
  match x with
  | Fin q => Fin (inject_Z (Qceiling q))
  | _ => x
  end.

(** [Math.abs]. *)
Definition abs (x : num) : num :=
  match x with
  | Fin q => Fin (Qabs q)
  | NegInf => PosInf
  | _ => x
  end.

(** [x % 1]: the remainder of the division truncated towards zero, so
    it has the sign of [x]; [Infinity % 1] is [NaN]. *)
Definition mod1 (x : num) : num :=
  match x with
  | Fin q => Fin (q - inject_Z (if Qle_bool 0 q then Qfloor q else Qceiling q))
  | _ => NaN
  end.

End JsNum.

Import JsNum.

Declare Scope js_scope.
Delimit Scope js_scope with js.
Infix "+" := add : js_scope.
Infix "-" := sub : js_scope.
Infix "*" := mul : js_scope.
Infix "/" := div : js_scope.
Infix "<" := ltb : js_scope.
Infix "<=" := leb : js_scope.
Infix "===" := strict_eq (at level 70, no associativity) : js_scope.

Local Open Scope js_scope.

(** The error monad of the model: [None] is a [TypeError] thrown by a
    non-null assertion ([this.config!], [this.initialCoords!]) on
    [undefined]. *)
Notation "x <- m ;; k" :=
  (match m with Some x => k | None => None end)
  (at level 61, m at next level, right associativity).

(* ------------------------------------------------------------------ *)
(** ** utils.ts *)

(** The part of [SuperTabsConfig] the core reads.  An option left
    [undefined] in the configuration object behaves as [NaN] in the
    comparisons below and is modelled that way. *)
Record SuperTabsConfig : Type := mkConfig {
  lazyLoad : bool;
  unloadWhenInvisible : bool;
  shortSwipeDuration : num;
}.

Record STCoord : Type := mkCoord { x : num; y : num }.

(** [export const easeInOutCubic = (t) => t < 0.5 ? 4 * t * t * t
      : (t - 1) * (2 * t - 2) * (2 * t - 2) + 1;] *)
Definition easeInOutCubic (t : num) : num :=
  if t < Fin (1 # 2) then Fin 4 * t * t * t
  else (t - Fin 1) * (Fin 2 * t - Fin 2) * (Fin 2 * t - Fin 2) + Fin 1.

(** The two fields of an [HTMLElement] that [getNormalizedScrollX] reads. *)
Record ScrollElement : Type := mkScrollElement {
  el_scrollWidth : num;
  el_scrollLeft : num;
}.

(** [Math.max(0, Math.min(el.scrollWidth - width, el.scrollLeft + delta))] *)
Definition getNormalizedScrollX (el : ScrollElement) (width delta : num) : num :=
  max (Fin 0) (min (el_scrollWidth el - width) (el_scrollLeft el + delta)).

(** [getScrollCoord(start, dest, startTime, currentTime, duration)] *)
Definition getScrollCoord (start dest startTime currentTime duration : num) : num :=
  let time := min (Fin 1) ((currentTime - startTime) / duration) in
  let timeFn := easeInOutCubic time in
  ceil (timeFn * (dest - start) + start).

(** [scroll(el, startX, x, startTime, duration)] with the animation frames
    it reschedules itself on: [frames] are the values of [getTs()] at the
    successive calls, the result the offsets passed to [el.scrollTo], in
    order.  The loop stops after the first call at which
    [currentTime - startTime >= duration]. *)
Fixpoint scroll (startX x startTime duration : num) (frames : list num)
  : list num :=
  match frames with
  | [] => []
  | currentTime :: rest =>
      let scrollX := if startX === x then x
                     else getScrollCoord startX x startTime currentTime duration in
      scrollX :: (if duration <= currentTime - startTime then []
                  else scroll startX x startTime duration rest)
  end.

Inductive scroll_action : Type :=
| ScrollToX (left : num)          (* el.scrollTo(left, 0), in an animation frame *)
| SmoothScrollTo (left : num).    (* el.scrollTo({ left, behavior: 'smooth' }) *)

(** [scrollEl(el, x, native, duration)].  [nativeScrollAvailable] is the
    module constant; [elScrollLeft] and [startTime] are [el.scrollLeft]
    and [getTs()] in the first animation frame, [frames] the clock at
    each call of [scroll]. *)
Definition scrollEl (nativeScrollAvailable : bool) (elScrollLeft x : num)
    (native : bool) (duration startTime : num) (frames : list num)
  : list scroll_action :=
  if duration <= Fin 0 then [ScrollToX x]
  else if native && nativeScrollAvailable then [SmoothScrollTo x]
  else map ScrollToX (scroll elScrollLeft x startTime duration frames).

(* ------------------------------------------------------------------ *)
(** ** super-tabs-container *)

Record tab : Type := mkTab { loaded : bool; visible : bool }.

(** The fields of [SuperTabsContainerComponent]; [scrollLeft] is
    [this.el.scrollLeft]. *)
Record Container : Type := mkContainer {
  config : option SuperTabsConfig;
  swipeEnabled : bool;
  autoScrollTop : bool;
  tabs : list tab;
  initialCoords : option STCoord;
  lastPosX : option num;
  isDragging : bool;
  initialTimestamp : option num;
  _activeTabIndex : option num;
  _selectedTabIndex : option num;
  scrollWidth : num;
  width : num;
  scrollLeft : num;
}.

(** What the container does to the outside world. *)
Inductive effect : Type :=
| ActiveTabIndexChange (index : num)     (* activeTabIndexChange.emit *)
| SelectedTabIndexChange (index : num)   (* selectedTabIndexChange.emit *)
| ScrollTo (scrollX : num) (animate : bool)
| ScrollActiveTabToTop.

Definition set_width (c : Container) (w : num) : Container :=
  {| config := config c; swipeEnabled := swipeEnabled c;
     autoScrollTop := autoScrollTop c; tabs := tabs c;
     initialCoords := initialCoords c; lastPosX := lastPosX c;
     isDragging := isDragging c; initialTimestamp := initialTimestamp c;
     _activeTabIndex := _activeTabIndex c;
     _selectedTabIndex := _selectedTabIndex c;
     scrollWidth := scrollWidth c; width := w; scrollLeft := scrollLeft c |}.

Definition set_tabs (c : Container) (ts : list tab) : Container :=
  {| config := config c; swipeEnabled := swipeEnabled c;
     autoScrollTop := autoScrollTop c; tabs := ts;
     initialCoords := initialCoords c; lastPosX := lastPosX c;
     isDragging := isDragging c; initialTimestamp := initialTimestamp c;
     _activeTabIndex := _activeTabIndex c;
     _selectedTabIndex := _selectedTabIndex c;
     scrollWidth := scrollWidth c; width := width c; scrollLeft := scrollLeft c |}.

Definition set_activeTabIndex (c : Container) (i : option num) : Container :=
  {| config := config c; swipeEnabled := swipeEnabled c;
     autoScrollTop := autoScrollTop c; tabs := tabs c;
     initialCoords := initialCoords c; lastPosX := lastPosX c;
     isDragging := isDragging c; initialTimestamp := initialTimestamp c;
     _activeTabIndex := i;
     _selectedTabIndex := _selectedTabIndex c;
     scrollWidth := scrollWidth c; width := width c; scrollLeft := scrollLeft c |}.

Definition set_selectedTabIndex (c : Container) (i : option num) : Container :=
  {| config := config c; swipeEnabled := swipeEnabled c;
     autoScrollTop := autoScrollTop c; tabs := tabs c;
     initialCoords := initialCoords c; lastPosX := lastPosX c;
     isDragging := isDragging c; initialTimestamp := initialTimestamp c;
     _activeTabIndex := _activeTabIndex c;
     _selectedTabIndex := i;
     scrollWidth := scrollWidth c; width := width c; scrollLeft := scrollLeft c |}.

(** The end of [onTouchEnd]: [isDragging = false], [initialCoords] and
    [lastPosX] cleared. *)
Definition reset_gesture (c : Container) : Container :=
  {| config := config c; swipeEnabled := swipeEnabled c;
     autoScrollTop := autoScrollTop c; tabs := tabs c;
     initialCoords := None; lastPosX := None;
     isDragging := false; initialTimestamp := initialTimestamp c;
     _activeTabIndex := _activeTabIndex c;
     _selectedTabIndex := _selectedTabIndex c;
     scrollWidth := scrollWidth c; width := width c; scrollLeft := scrollLeft c |}.

(** [updateWidth]: [this.width = Math.round(boundingRect.width * 10000) / 10000]. *)
Definition updateWidth (c : Container) (boundingRectWidth : num) : Container :=
  set_width c (round (boundingRectWidth * Fin 10000) / Fin 10000).

Definition positionToIndex (c : Container) (scrollX : num) : num :=
  let tabWidth := width c in
  scrollX / tabWidth.

Definition indexToPosition (c : Container) (tabIndex : num) : num :=
  round (tabIndex * width c * Fin 10000) / Fin 10000.

Definition calcSelectedTab (c : Container) : num :=
  let scrollX := max (Fin 0) (min (scrollWidth c - width c) (scrollLeft c)) in
  positionToIndex c scrollX.

Definition normalizeSelectedTab (c : Container) (index : num) : num :=
  let scrollX :=
    max (Fin 0) (min (scrollWidth c - width c) (indexToPosition c index)) in
  round (scrollX / width c).

(** [moveContainer]: an animated [scrollEl] or an immediate [el.scroll]. *)
Definition moveContainer (scrollX : num) (animate : bool) : list effect :=
  [ScrollTo scrollX animate].

Definition moveContainerByIndex (c : Container) (index : num) (animate : bool)
  : list effect :=
  let scrollX := indexToPosition c index in
  if (scrollX === Fin 0) && (Fin 0 < index) then []
  else moveContainer scrollX animate.

(** The [for (const tab of tabs)] loop of [lazyLoadTabs]. *)
Fixpoint lazyLoadLoop (cfg : SuperTabsConfig) (min max : num) (index : nat)
    (ts : list tab) : list tab :=
  match ts with
  | [] => []
  | t :: ts' =>
      let i := Fin (inject_Z (Z.of_nat index)) in
      let vis := (min <= i) && (i <= max) in
      {| visible := vis;
         loaded := vis || (if unloadWhenInvisible cfg then false else loaded t) |}
      :: lazyLoadLoop cfg min max (S index) ts'
  end.

Definition lazyLoadTabs (c : Container) : Container :=
  match _activeTabIndex c with
  | None => c
  | Some activeTab =>
      match config c with
      | None => c
      | Some cfg =>
          if negb (lazyLoad cfg) then
            set_tabs c (map (fun _ => {| loaded := true; visible := true |}) (tabs c))
          else
            let min := activeTab - Fin 1 in
            let max := activeTab + Fin 1 in
            set_tabs c (lazyLoadLoop cfg min max 0 (tabs c))
      end
  end.

Definition updateActiveTabIndex (c : Container) (index : num) (emit : bool)
  : option (Container * list effect) :=
  let c1 := set_activeTabIndex c (Some index) in
  let effs := if emit then [ActiveTabIndexChange index] else [] in
  cfg <- config c1 ;;
  Some (if lazyLoad cfg then lazyLoadTabs c1 else c1, effs).

Definition updateSelectedTabIndex (c : Container) (index : num)
  : Container * list effect :=
  let same := match _selectedTabIndex c with
              | Some s => index === s
              | None => false
              end in
  if same then (c, [])
  else (set_selectedTabIndex c (Some index), [SelectedTabIndexChange index]).

(** [setActiveTabIndex(index, moveContainer = true, animate = true)] *)
Definition setActiveTabIndex (c : Container) (index : num)
    (moveContainer animate : bool) : option (Container * list effect) :=
  let same := match _activeTabIndex c with
              | Some a => a === index
              | None => false
              end in
  if same && negb (autoScrollTop c) then Some (c, [])
  else
    let e0 := if same then [ScrollActiveTabToTop] else [] in
    let e1 := if moveContainer then moveContainerByIndex c index animate else [] in
    p <- updateActiveTabIndex c index false ;;
    Some (fst p, e0 ++ e1 ++ snd p).

(** [onTouchEnd]; [now] is the value of [getTs()]. *)
Definition onTouchEnd (c : Container) (coords : STCoord) (now : num)
  : option (Container * list effect) :=
  if negb (swipeEnabled c) || negb (isDragging c) then Some (c, [])
  else
    cfg <- config c ;;
    c0 <- initialCoords c ;;
    let t0 := match initialTimestamp c with Some t => t | None => NaN end in
    let deltaTime := now - t0 in
    let shortSwipe :=
      (Fin 0 < shortSwipeDuration cfg) && (deltaTime <= shortSwipeDuration cfg) in
    let shortSwipeDelta := x coords - x c0 in
    let selectedTabIndex := calcSelectedTab c in
    let expectedTabIndex := round selectedTabIndex in
    let onActive := match _activeTabIndex c with
                    | Some a => expectedTabIndex === a
                    | None => false
                    end in
    let selectedTabIndex :=
      if shortSwipe && onActive
      then selectedTabIndex + (if Fin 0 < shortSwipeDelta then Fin (-1) else Fin 1)
      else selectedTabIndex in
    let selectedTabIndex := normalizeSelectedTab c selectedTabIndex in
    p <- updateActiveTabIndex c selectedTabIndex true ;;
    let e2 := moveContainerByIndex (fst p) selectedTabIndex true in
    Some (reset_gesture (fst p), snd p ++ e2).

Definition set_gesture (c : Container) (ic : option STCoord) (lx : option num)
    (dragging : bool) : Container :=
  {| config := config c; swipeEnabled := swipeEnabled c;
     autoScrollTop := autoScrollTop c; tabs := tabs c;
     initialCoords := ic; lastPosX := lx;
     isDragging := dragging; initialTimestamp := initialTimestamp c;
     _activeTabIndex := _activeTabIndex c;
     _selectedTabIndex := _selectedTabIndex c;
     scrollWidth := scrollWidth c; width := width c; scrollLeft := scrollLeft c |}.

(** The part of [onTouchMove] after the drag has been recognised
    ([this.isDragging] is true): [lx] is [this.lastPosX]. *)
Definition touchMoveScroll (c1 : Container) (lx : num) (coords : STCoord)
  : Container * list effect :=
  let deltaX := lx - x coords in
  if deltaX === Fin 0 then (c1, [])
  else
    let scrollX := max (Fin 0) (min (scrollWidth c1 - width c1) (scrollLeft c1 + deltaX)) in
    if floor scrollX === floor (scrollLeft c1) then (c1, [])
    else
      let index := round (positionToIndex c1 scrollX * Fin 100) / Fin 100 in
      let (c2, e) := updateSelectedTabIndex c1 index in
      (set_gesture c2 (initialCoords c2) (Some (x coords)) (isDragging c2),
       e ++ [ScrollTo scrollX false]).

(** [onTouchMove].  [gesture] is the value of
    [checkGesture(coords, this.initialCoords, this.config!)], which is only
    called while no drag is in progress; [checkGesture] and
    [this.config!.allowElementScroll] throw when [config] is undefined.
    [el.scroll(scrollX, 0)] is the [ScrollTo scrollX false] effect. *)
Definition onTouchMove (c : Container) (coords : STCoord) (gesture : bool)
  : option (Container * list effect) :=
  if negb (swipeEnabled c) then Some (c, [])
  else
    match initialCoords c, lastPosX c with
    | Some ic, Some lx =>
        cfg <- config c ;;
        let c1 := if isDragging c then Some c
                  else if gesture then Some (set_gesture c (initialCoords c) (lastPosX c) true)
                  else None in
        match c1 with
        | None =>
            if Fin 100 < abs (y coords - y ic)
            then Some (set_gesture c None None (isDragging c), [])
            else Some (c, [])
        | Some c1 => Some (touchMoveScroll c1 lx coords)
        end
    | _, _ => Some (c, [])
    end.

Definition set_initialTimestamp (c : Container) (t : option num) : Container :=
  {| config := config c; swipeEnabled := swipeEnabled c;
     autoScrollTop := autoScrollTop c; tabs := tabs c;
     initialCoords := initialCoords c; lastPosX := lastPosX c;
     isDragging := isDragging c; initialTimestamp := t;
     _activeTabIndex := _activeTabIndex c;
     _selectedTabIndex := _selectedTabIndex c;
     scrollWidth := scrollWidth c; width := width c; scrollLeft := scrollLeft c |}.

(** [onTouchStart].  [avoidElements] is [this.config!.avoidElements];
    [avoided] says whether the target or one of its ancestors carries a
    truthy [avoid-super-tabs] attribute (the [do ... while] walk);
    [rectWidth] is the width of [this.el.getBoundingClientRect()];
    [leftThreshold] and [rightThreshold] are the side-menu thresholds
    [indexTabs] set; [now] is [getTs()]. *)
Definition onTouchStart (c : Container) (avoidElements avoided : bool)
    (coords : STCoord) (rectWidth leftThreshold rightThreshold now : num)
  : option Container :=
  if negb (swipeEnabled c) then Some c
  else
    cfg <- config c ;;
    if avoidElements && avoided then Some c
    else
      let c1 := updateWidth c rectWidth in
      let vw := width c1 in
      if (x coords < leftThreshold) || (vw - rightThreshold < x coords) then Some c1
      else
        let c2 := if Fin 0 < shortSwipeDuration cfg
                  then set_initialTimestamp c1 (Some now) else c1 in
        Some (set_gesture c2 (Some coords) (Some (x coords)) (isDragging c2)).

(** [onClick] (capture phase): whether the click is stopped and its
    default prevented. *)
Definition onClick (c : Container) : bool := isDragging c.

Definition set_swipeEnabled (c : Container) (b : bool) : Container :=
  {| config := config c; swipeEnabled := b;
     autoScrollTop := autoScrollTop c; tabs := tabs c;
     initialCoords := initialCoords c; lastPosX := lastPosX c;
     isDragging := isDragging c; initialTimestamp := initialTimestamp c;
     _activeTabIndex := _activeTabIndex c;
     _selectedTabIndex := _selectedTabIndex c;
     scrollWidth := scrollWidth c; width := width c; scrollLeft := scrollLeft c |}.


(** A sequence of [updateSelectedTabIndex] calls (the [touchmove] handler
    is its only caller); the effects are collected in order. *)
Fixpoint updateSelectedTabIndex_run (c : Container) (indices : list num)
  : Container * list effect :=
  match indices with
  | [] => (c, [])
  | i :: rest =>
      let (c1, e1) := updateSelectedTabIndex c i in
      let (c2, e2) := updateSelectedTabIndex_run c1 rest in
      (c2, e1 ++ e2)
  end.

(** The values carried by the [selectedTabIndexChange] emissions. *)
Fixpoint selected_values (effs : list effect) : list num :=
  match effs with
  | [] => []
  | SelectedTabIndexChange i :: rest => i :: selected_values rest
  | _ :: rest => selected_values rest
  end.

(** No two successive values are [===]; the first differs from [prev]
    when [prev] is defined. *)
Fixpoint strictly_changing (prev : option num) (vals : list num) : bool :=
  match vals with
  | [] => true
  | v :: rest =>
      (match prev with Some p => negb (v === p) | None => true end)
      && strictly_changing (Some v) rest
  end.

(* ------------------------------------------------------------------ *)
(** ** super-tabs-toolbar (the part the root drives) *)

Record Toolbar : Type := mkToolbar {
  tb_activeTabIndex : num;
  buttonCount : nat;   (* this.buttons.length *)
}.

(** [setActiveTab]: the index is rounded and clamped to the buttons; the
    button highlight and the indicator are visual only and emit nothing. *)
Definition setActiveTab (t : Toolbar) (index : num) (align animate : bool) : Toolbar :=
  let index := max (Fin 0)
                 (min (round index) (Fin (inject_Z (Z.of_nat (buttonCount t))) - Fin 1)) in
  {| tb_activeTabIndex := index; buttonCount := buttonCount t |}.

(** The rest of [SuperTabsToolbarComponent]: measuring, taps and clicks,
    and the indicator. *)
Module SuperTabsToolbar.

Inductive sideMenu_kind : Type := SideLeft | SideRight | SideBoth.

(** The configuration options the toolbar reads; an option left
    [undefined] is [NaN] (resp. [None]). *)
Record ToolbarConfig : Type := mkToolbarConfig {
  sideMenu : option sideMenu_kind;
  sideMenuThreshold : num;
  dragThreshold : num;
}.

Record ToolbarState : Type := mkToolbarState {
  tb : Toolbar;                 (* activeTabIndex and this.buttons.length *)
  tb_config : option ToolbarConfig;
  scrollable : bool;
  tb_width : num;
  leftThreshold : num;
  rightThreshold : num;
  touchStartTs : num;
  lastClickTs : num;
  tb_initialCoords : option STCoord;
  tb_lastPosX : option num;
  tb_isDragging : option bool;  (* undefined until the first gesture *)
  indicatorShown : bool;        (* [showIndicator && indicatorEl] *)
}.

(** [updateWidth]: [this.width = Math.round(cr.width * 100) / 100] (and
    [this.offsetLeft = cr.left]). *)
Definition updateWidth (s : ToolbarState) (crWidth : num) : ToolbarState :=
  {| tb := tb s; tb_config := tb_config s; scrollable := scrollable s;
     tb_width := round (crWidth * Fin 100) / Fin 100;
     leftThreshold := leftThreshold s; rightThreshold := rightThreshold s;
     touchStartTs := touchStartTs s; lastClickTs := lastClickTs s;
     tb_initialCoords := tb_initialCoords s; tb_lastPosX := tb_lastPosX s;
     tb_isDragging := tb_isDragging s; indicatorShown := indicatorShown s |}.

Definition set_touch (s : ToolbarState) (tst lct : num) (ic : option STCoord)
    (lx : option num) (d : option bool) : ToolbarState :=
  {| tb := tb s; tb_config := tb_config s; scrollable := scrollable s;
     tb_width := tb_width s;
     leftThreshold := leftThreshold s; rightThreshold := rightThreshold s;
     touchStartTs := tst; lastClickTs := lct;
     tb_initialCoords := ic; tb_lastPosX := lx; tb_isDragging := d;
     indicatorShown := indicatorShown s |}.

(** [updateThresholds] *)
Definition updateThresholds (s : ToolbarState) : ToolbarState :=
  match tb_config s with
  | None => s
  | Some cfg =>
      let l := match sideMenu cfg with
               | Some SideBoth | Some SideLeft => sideMenuThreshold cfg
               | _ => leftThreshold s
               end in
      let r := match sideMenu cfg with
               | Some SideBoth | Some SideRight => sideMenuThreshold cfg
               | _ => rightThreshold s
               end in
      {| tb := tb s; tb_config := tb_config s; scrollable := scrollable s;
         tb_width := tb_width s; leftThreshold := l; rightThreshold := r;
         touchStartTs := touchStartTs s; lastClickTs := lastClickTs s;
         tb_initialCoords := tb_initialCoords s; tb_lastPosX := tb_lastPosX s;
         tb_isDragging := tb_isDragging s; indicatorShown := indicatorShown s |}
  end.

(** The target of a click or touch event: a [super-tab-button] (whose
    [index] [queryButtons] set to its position), the toolbar itself, or
    another element, with the index of its closest [super-tab-button]
    ancestor if there is one. *)
Inductive target : Type :=
| TgtButton (index : nat)
| TgtToolbar
| TgtOther (closestButton : option nat).

(** [getButtonFromEv], returning the button's [index]. *)
Definition getButtonFromEv (t : target) : option nat :=
  match t with
  | TgtButton i => Some i
  | TgtToolbar => None
  | TgtOther b => b
  end.

(** [onButtonClick]; [now] is [Date.now()] and the result lists the
    indices of the buttons passed to [buttonClick.emit].  Its
    [setActiveTab(index, true, true)] runs [alignIndicator] on the
    clamped, integral index: when the indicator is shown this sets
    [isDragging = index % 1 > 0], that is [false]. *)
Definition onButtonClick (s : ToolbarState) (i : nat) (now : num)
  : ToolbarState * list nat :=
  let s1 := set_touch s (touchStartTs s) now (tb_initialCoords s) (tb_lastPosX s)
              (tb_isDragging s) in
  ({| tb := setActiveTab (tb s1) (Fin (inject_Z (Z.of_nat i))) true true;
      tb_config := tb_config s1; scrollable := scrollable s1; tb_width := tb_width s1;
      leftThreshold := leftThreshold s1; rightThreshold := rightThreshold s1;
      touchStartTs := touchStartTs s1; lastClickTs := lastClickTs s1;
      tb_initialCoords := tb_initialCoords s1; tb_lastPosX := tb_lastPosX s1;
      tb_isDragging := if indicatorShown s1 then Some false else tb_isDragging s1;
      indicatorShown := indicatorShown s1 |}, [i]).

(** [onClick]; [tgt = None] is an event without a target. *)
Definition onClick (s : ToolbarState) (tgt : option target) (now : num)
  : ToolbarState * list nat :=
  match tgt with
  | None => (s, [])
  | Some t =>
      if now - touchStartTs s <= Fin 150 then (s, [])
      else match getButtonFromEv t with
           | None => (s, [])
           | Some i => onButtonClick s i now
           end
  end.

(** [onTouchStart]; [now] is [Date.now()]. *)
Definition onTouchStart (s : ToolbarState) (coords : STCoord) (now : num)
  : ToolbarState :=
  if negb (scrollable s) then s
  else if (x coords < leftThreshold s) || (tb_width s - rightThreshold s < x coords)
  then s
  else set_touch s now (lastClickTs s) (Some coords) (Some (x coords)) (tb_isDragging s).

(** [onTouchMove]; [hasButtonsContainerEl] says whether
    [buttonsContainerEl] is set, [shouldCapture] is the value of
    [checkGesture], and the result the [deltaX] of the animation frame
    requested, if any.  Without a config, [checkGesture(..., this.config!)]
    throws before any assignment: the async handler's promise is
    rejected and the state is left as it was. *)
Definition onTouchMove (s : ToolbarState) (hasButtonsContainerEl : bool)
    (coords : STCoord) (shouldCapture : bool) : ToolbarState * option num :=
  if negb hasButtonsContainerEl || negb (scrollable s) then (s, None)
  else
    match tb_initialCoords s, tb_lastPosX s with
    | Some ic, Some lx =>
        let dragging := match tb_isDragging s with Some true => true | _ => false end in
        if negb dragging && match tb_config s with None => true | Some _ => false end
        then (s, None)
        else
        let s1 := if dragging then Some s
                  else if shouldCapture
                  then Some (set_touch s (touchStartTs s) (lastClickTs s)
                               (tb_initialCoords s) (tb_lastPosX s) (Some true))
                  else None in
        match s1 with
        | None =>
            if Fin 100 < abs (y coords - y ic)
            then (set_touch s (touchStartTs s) (lastClickTs s) None None (tb_isDragging s), None)
            else (s, None)
        | Some s1 =>
            let deltaX := lx - x coords in
            if deltaX === Fin 0 then (s1, None)
            else (set_touch s1 (touchStartTs s1) (lastClickTs s1) (tb_initialCoords s1)
                    (Some (x coords)) (tb_isDragging s1), Some deltaX)
        end
    | _, _ => (s, None)
    end.

(** The animation frame requested by [onTouchMove], run on the state
    [s] of its time: the offset passed to [buttonsContainerEl.scroll],
    if any; [el] and [clientWidth] are the buttons container's. *)
Definition touchMoveFrame (s : ToolbarState) (el : ScrollElement) (clientWidth deltaX : num)
  : option num :=
  match tb_isDragging s with
  | Some true =>
      let scrollX := getNormalizedScrollX el clientWidth deltaX in
      if scrollX === el_scrollLeft el then None else Some scrollX
  | _ => None
  end.

(** [onTouchEnd]: a short tap on a button is a click; the gesture state
    is cleared at the end, except after the early [return] taken when the
    tap is not on a button. *)
Definition onTouchEnd (s : ToolbarState) (coords : STCoord) (tgt : target) (now : num)
  : ToolbarState * list nat :=
  let reset s' := set_touch s' (touchStartTs s') (lastClickTs s') None None (Some false) in
  if (lastClickTs s < touchStartTs s) && (now - touchStartTs s <= Fin 150) then
    let x0 := match tb_initialCoords s with Some c => x c | None => NaN end in
    let dt := match tb_config s with Some cfg => dragThreshold cfg | None => NaN end in
    if abs (x coords - x0) < dt then
      match getButtonFromEv tgt with
      | None => (s, [])
      | Some i => let (s1, evs) := onButtonClick s i now in (reset s1, evs)
      end
    else (reset s, [])
  else (reset s, []).

(** The two measurements of a [super-tab-button] the indicator uses. *)
Record ButtonGeometry : Type := mkButton {
  offsetLeft : num;
  clientWidth : num;
}.

(** [this.buttons[i]]: [undefined] unless [i] is an integer in range. *)
Definition buttonAt (buttons : list ButtonGeometry) (i : num) : option ButtonGeometry :=
  match i with
  | Fin q =>
      if Qeq_bool q (inject_Z (Qfloor q)) && (0 <=? Qfloor q)%Z
      then nth_error buttons (Z.to_nat (Qfloor q))
      else None
  | _ => None
  end.

(** What the animation frame scheduled by [alignIndicator] writes:
    [indicatorPosition], [indicatorWidth], and the [isDragging] value
    that selects a zero transition and a non-animated container scroll. *)
Record IndicatorFrame : Type := mkIndicatorFrame {
  indicatorPosition : num;
  indicatorWidth : num;
  frameDragging : bool;
}.

(** [alignIndicator(index)]: the new value of [this.isDragging] ([None]:
    not assigned) and the frame scheduled, if any. *)
Definition alignIndicator (showIndicator hasIndicatorEl : bool)
    (buttons : list ButtonGeometry) (index : num)
  : option bool * option IndicatorFrame :=
  if negb showIndicator || negb hasIndicatorEl then (None, None)
  else
    let remainder := mod1 index in
    let isDragging := Fin 0 < remainder in
    let fl := floor index in
    let ce := ceil index in
    match buttonAt buttons fl with
    | None => (Some isDragging, None)
    | Some button =>
        let position := offsetLeft button in
        let width := clientWidth button in
        if isDragging && negb (fl === ce) then
          match buttonAt buttons ce with
          | None => (Some isDragging, None)
          | Some buttonB =>
              (Some isDragging,
               Some {| indicatorPosition :=
                         position + remainder * (offsetLeft buttonB - position);
                       indicatorWidth := width + remainder * (clientWidth buttonB - width);
                       frameDragging := isDragging |})
          end
        else
          (Some isDragging,
           Some {| indicatorPosition := position; indicatorWidth := width;
                   frameDragging := isDragging |})
    end.

(** [adjustContainerScroll]: the offset the buttons container is scrolled
    to, if any.  [ip], [iw] are the indicator's position and width, [mw]
    and [sp] the container's [clientWidth] and [scrollLeft]. *)
Definition adjustContainerScroll (hasButtonsContainerEl : bool) (ip iw mw sp : num)
  : option num :=
  if negb hasButtonsContainerEl then None
  else
    let centerDelta := mw / Fin 2 - iw / Fin 2 in
    let a := floor (ip + iw + centerDelta) in
    let b := floor (ip - centerDelta) in
    let c := floor (mw + sp) in
    if c < a then Some (ip + iw + centerDelta - mw)
    else if b < sp then
      let pos := max (ip - centerDelta) (Fin 0) in
      Some (if ip < pos then ip - mw + iw else pos)
    else None.

End SuperTabsToolbar.

(* ------------------------------------------------------------------ *)
(** ** super-tabs (the root) *)

Record SuperTabChangeEventDetail : Type := mkDetail {
  changed : bool;
  index : num;
}.

Record SuperTabs : Type := mkSuperTabs {
  activeTabIndex : num;
  container : option Container;
  toolbar : option Toolbar;
}.

Definition set_root_activeTabIndex (r : SuperTabs) (i : num) : SuperTabs :=
  {| activeTabIndex := i; container := container r; toolbar := toolbar r |}.

Definition set_container (r : SuperTabs) (c : Container) : SuperTabs :=
  {| activeTabIndex := activeTabIndex r; container := Some c; toolbar := toolbar r |}.

(** [this.toolbar && this.toolbar.setActiveTab(index, align, animate)] *)
Definition toolbar_setActiveTab (r : SuperTabs) (i : num) (align animate : bool)
  : SuperTabs :=
  match toolbar r with
  | Some t => {| activeTabIndex := activeTabIndex r; container := container r;
                 toolbar := Some (setActiveTab t i align animate) |}
  | None => r
  end.

(** [emitTabChangeEvent(newIndex, oldIndex?)]: the [tabChange] events. *)
Definition emitTabChangeEvent (r : SuperTabs) (newIndex : num) (oldIndex : option num)
  : list SuperTabChangeEventDetail :=
  if newIndex < Fin 0 then []
  else
    let oldIndex := match oldIndex with
                    | Some o => if o < Fin 0 then activeTabIndex r else o
                    | None => activeTabIndex r
                    end in
    [{| changed := negb (newIndex === oldIndex); index := newIndex |}].

Definition onContainerActiveTabChange (r : SuperTabs) (i : num)
  : SuperTabs * list SuperTabChangeEventDetail :=
  let evs := emitTabChangeEvent r i None in
  let r1 := set_root_activeTabIndex r i in
  (toolbar_setActiveTab r1 i true true, evs).

(** The container's events reach the root's listeners synchronously:
    [activeTabIndexChange] runs [onContainerActiveTabChange];
    [selectedTabIndexChange] only moves the toolbar indicator. *)
Fixpoint dispatch (r : SuperTabs) (effs : list effect)
  : SuperTabs * list SuperTabChangeEventDetail :=
  match effs with
  | [] => (r, [])
  | ActiveTabIndexChange i :: rest =>
      let (r1, ev1) := onContainerActiveTabChange r i in
      let (r2, ev2) := dispatch r1 rest in
      (r2, ev1 ++ ev2)
  | _ :: rest => dispatch r rest
  end.

(** [selectTab(index, animate = true, emit = true)], once [initPromise]
    has resolved. *)
Definition selectTab (r : SuperTabs) (index : num) (animate emit : bool)
  : option (SuperTabs * list SuperTabChangeEventDetail) :=
  let lastIndex := activeTabIndex r in
  p <- match container r with
       | Some c =>
           q <- setActiveTabIndex c index true animate ;;
           Some (dispatch (set_container r (fst q)) (snd q))
       | None => Some (r, [])
       end ;;
  let r2 := toolbar_setActiveTab (fst p) index true animate in
  let evs := if emit then emitTabChangeEvent r2 index (Some lastIndex) else [] in
  Some (set_root_activeTabIndex r2 lastIndex, snd p ++ evs).

(** [onToolbarButtonClick] with [ev.detail.index = index].  The call
    [this.container.setActiveTabIndex(index, true, true)] goes through the
    element's method proxy and runs after the handler returns, its promise
    not awaited.  Without a config it throws: in the animated
    [moveContainer] ([scrollEl(..., this.config!...)]) before any
    assignment when the container moves, otherwise in
    [updateActiveTabIndex] ([this.config!.lazyLoad]) after
    [_activeTabIndex = index]; the rejected promise stops the rest.  Its
    effects reach the root's listeners. *)
Definition onToolbarButtonClick (r : SuperTabs) (index : num)
  : SuperTabs * list SuperTabChangeEventDetail :=
  let evs := emitTabChangeEvent r index None in
  let r1 := set_root_activeTabIndex r index in
  match container r1 with
  | Some c =>
      match setActiveTabIndex c index true true with
      | Some (c', effs) =>
          let (r2, evs2) := dispatch (set_container r1 c') effs in
          (r2, evs ++ evs2)
      | None =>
          match moveContainerByIndex c index true with
          | [] => (set_container r1 (set_activeTabIndex c (Some index)), evs)
          | _ => (r1, evs)
          end
      end
  | None => (r1, evs)
  end.

(* ------------------------------------------------------------------ *)
(** ** The initialisation retry loop of the root *)

Definition maxInitRetries : Z := 1000.

Definition init_diagnostic : string :=
  "container still doesn't exists after 1000 frames".

(** The part of the root's state [initComponent] reads and writes:
    whether [this.container] is set, [initAttempts], the debug log and
    whether [initPromise] has been resolved. *)
Record InitState : Type := mkInitState {
  hasContainer : bool;
  initAttempts : Z;
  debugLog : list string;
  initResolved : bool;
}.

Inductive frame_result : Type :=
| Reschedule    (* requestAnimationFrame(() => this.initComponent()); return *)
| Finished.     (* the rest of initComponent ran *)

(** The end of [initComponent]: move to the active tab, propagate the
    configuration, set up the listeners and resolve [initPromise]. *)
Definition finishInit (st : InitState) : InitState :=
  {| hasContainer := hasContainer st; initAttempts := initAttempts st;
     debugLog := debugLog st; initResolved := true |}.

Definition initComponent (st : InitState) : InitState * frame_result :=
  if negb (hasContainer st) then
    let attempts := (initAttempts st + 1)%Z in
    let st1 := {| hasContainer := hasContainer st; initAttempts := attempts;
                  debugLog := debugLog st; initResolved := initResolved st |} in
    if (attempts <=? maxInitRetries)%Z then (st1, Reschedule)
    else
      let st2 := {| hasContainer := hasContainer st1; initAttempts := attempts;
                    debugLog := debugLog st1 ++ [init_diagnostic];
                    initResolved := initResolved st1 |} in
      (finishInit st2, Finished)
  else (finishInit st, Finished).

(** Successive animation frames: [present f] says whether
    [this.container] is set when frame [f] runs (a [slotchange] may set it
    in between); the result is the frame at which the loop finished,
    i.e. the number of reschedules. *)
Fixpoint runFrames (fuel : nat) (present : nat -> bool) (f : nat) (st : InitState)
  : option (nat * InitState) :=
  match fuel with
  | O => None
  | S fuel' =>
      let st0 := {| hasContainer := present f; initAttempts := initAttempts st;
                    debugLog := debugLog st; initResolved := initResolved st |} in
      match initComponent st0 with
      | (st1, Reschedule) => runFrames fuel' present (S f) st1
      | (st1, Finished) => Some (f, st1)
      end
  end.

(** The state after the constructor: [initAttempts = 0]. *)
Definition initState0 : InitState :=
  {| hasContainer := false; initAttempts := 0; debugLog := []; initResolved := false |}.

Local Close Scope js_scope.

(* ------------------------------------------------------------------ *)
(** ** Specification-side definitions *)

(** The easing curve as the specification writes it:
    [f(t) = t < 0.5 ? 4t^3 : 1 - (-2t + 2)^3 / 2], in exact arithmetic. *)
Definition easeInOutCubic_spec (t : Q) : Q :=
  if negb (Qle_bool (1 # 2) t) then 4 * t ^ 3
  else 1 - (-2 * t + 2) ^ 3 / 2.

(* ------------------------------------------------------------------ *)
(** ** Auxiliary definitions of the proofs *)

Module TB := SuperTabsToolbar.

(** The easing curve on rationals, as [easeInOutCubic] computes it. *)
Definition ease_q (t : Q) : Q :=
  if Qle_bool (1 # 2) t then (t + - (1)) * (2 * t + - (2)) * (2 * t + - (2)) + 1
  else 4 * t * t * t.

(** A drag in progress has its start coordinates and last position. *)
Definition gesture_consistent (c : Container) : bool :=
  negb (isDragging c) ||
  (match initialCoords c with Some _ => true | None => false end &&
   match lastPosX c with Some _ => true | None => false end).

(** Concrete states the theorems are instantiated on, at the end.  A
    container in the middle of a drag: four tabs of width 375, scrolled
    to 100, the finger down at x = 200 and last seen at 100. *)
Definition dragging_container : Container :=
  mkContainer (Some (mkConfig false false (Fin 300))) true false []
    (Some (mkCoord (Fin 200) (Fin 0))) (Some (Fin 100)) true
    (Some (Fin 0)) (Some (Fin 0)) None
    (Fin (inject_Z 4 * (inject_Z 3750000 / 10000)))
    (Fin (inject_Z 3750000 / 10000))
    (Fin (inject_Z 1000000 / 10000)).

(** A container touched at (200, 0) whose drag has not been recognised. *)
Definition touched_container : Container :=
  mkContainer (Some (mkConfig false false (Fin 300))) true false []
    (Some (mkCoord (Fin 200) (Fin 0))) (Some (Fin 200)) false
    (Some (Fin 0)) (Some (Fin 0)) None
    (Fin 1500) (Fin 375) (Fin 0).

(** A root on container [c], at tab 0, with a toolbar of four buttons. *)
Definition root_of (c : Container) : SuperTabs :=
  mkSuperTabs (Fin 0) (Some c) (Some (mkToolbar (Fin 0) 4)).

(** A scrollable toolbar 300 wide with three buttons, no side menu,
    a drag threshold of 10 and the indicator shown, last touched at 1000
    at (100, 50). *)
Definition toolbar_state : TB.ToolbarState :=
  TB.mkToolbarState (mkToolbar (Fin 0) 3)
    (Some (TB.mkToolbarConfig None (Fin 0) (Fin 10))) true (Fin 300) (Fin 0) (Fin 0)
    (Fin 1000) (Fin 0) (Some (mkCoord (Fin 100) (Fin 50))) (Some (Fin 100)) (Some false)
    true.

(** The same toolbar with a left side menu whose edge zone is 50 wide. *)
Definition toolbar_state_left_menu : TB.ToolbarState :=
  TB.mkToolbarState (mkToolbar (Fin 0) 3)
    (Some (TB.mkToolbarConfig (Some TB.SideLeft) (Fin 50) (Fin 10))) true (Fin 300)
    (Fin 0) (Fin 0) (Fin 1000) (Fin 0) None None None true.

(** Three buttons: [0, 80), [80, 200) and [200, 300). *)
Definition three_buttons : list TB.ButtonGeometry :=
  [TB.mkButton (Fin 0) (Fin 80); TB.mkButton (Fin 80) (Fin 120);
   TB.mkButton (Fin 200) (Fin 100)].

(* ------------------------------------------------------------------ *)
(** ** Rounding and the number model *)

Lemma Qfloor_unique (z : Z) (q : Q) :
  inject_Z z <= q -> q < inject_Z (z + 1) -> Qfloor q = z.
Proof.
  intros Hlo Hhi.
  pose proof (Qfloor_le q) as Hf. pose proof (Qlt_floor q) as Hf'.
  assert (A : (z < Qfloor q + 1)%Z).
  { rewrite Zlt_Qlt. apply Qle_lt_trans with q; assumption. }
  assert (B : (Qfloor q < z + 1)%Z).
  { rewrite Zlt_Qlt. apply Qle_lt_trans with q; assumption. }
  lia.
Qed.

(** [Math.round] of an integer is that integer. *)
Lemma Qfloor_int_half (z : Z) : Qfloor (inject_Z z + (1 # 2)) = z.
Proof.
  apply Qfloor_unique.
  - rewrite <- (Qplus_0_r (inject_Z z)) at 1. apply Qplus_le_r. discriminate.
  - rewrite inject_Z_plus. apply Qplus_lt_r. reflexivity.
Qed.

(** [Math.round] commutes with an integer shift. *)
Lemma Qfloor_shift (q : Q) (z : Z) :
  Qfloor (q + inject_Z z) = (Qfloor q + z)%Z.
Proof.
  apply Qfloor_unique.
  - rewrite inject_Z_plus. apply Qplus_le_compat; [apply Qfloor_le | apply Qle_refl].
  - pose proof (Qlt_floor q) as H.
    rewrite !inject_Z_plus in *.
    setoid_replace (inject_Z (Qfloor q) + inject_Z z + inject_Z 1)
      with ((inject_Z (Qfloor q) + inject_Z 1) + inject_Z z) by ring.
    apply Qplus_lt_le_compat; [exact H | apply Qle_refl].
Qed.


Lemma ltb_Fin (a b : Q) : ltb (Fin a) (Fin b) = negb (Qle_bool b a).
Proof. reflexivity. Qed.

Lemma max_Fin (a b : Q) :
  max (Fin a) (Fin b) = if Qle_bool b a then Fin a else Fin b.
Proof. unfold max; simpl. destruct (Qle_bool b a); reflexivity. Qed.

Lemma min_Fin (a b : Q) :
  min (Fin a) (Fin b) = if Qle_bool a b then Fin a else Fin b.
Proof. unfold min; simpl. destruct (Qle_bool a b); reflexivity. Qed.

Lemma Qle_bool_false (a b : Q) : Qle_bool a b = false -> b < a.
Proof. intro E. apply Qnot_le_lt. intro H. apply Qle_bool_iff in H. congruence. Qed.

Lemma max0_Fin_bounds (a m : Q) :
  0 <= a -> m <= a -> exists q, max (Fin 0) (Fin m) = Fin q /\ 0 <= q <= a.
Proof.
  intros Ha Hm. rewrite max_Fin. destruct (Qle_bool m 0) eqn:E.
  - exists 0. split; [reflexivity | split; [apply Qle_refl | assumption]].
  - exists m. split; [reflexivity|]. apply Qle_bool_false in E.
    split; [apply Qlt_le_weak; assumption | assumption].
Qed.

(** [Math.max(0, Math.min(a, x))] with [a >= 0] and [x] not [NaN]
    lands in [[0, a]]. *)
Lemma clamp_bounds (a : Q) (x : num) :
  0 <= a -> isNaN x = false ->
  exists q, max (Fin 0) (min (Fin a) x) = Fin q /\ 0 <= q <= a.
Proof.
  intros Ha Hx. destruct x as [b | | |]; try discriminate.
  - rewrite min_Fin. destruct (Qle_bool a b) eqn:Eab.
    + apply max0_Fin_bounds; [assumption | apply Qle_refl].
    + apply max0_Fin_bounds; [assumption|].
      apply Qlt_le_weak. apply Qle_bool_false. assumption.
  - (* +Infinity *)
    change (min (Fin a) PosInf) with (Fin a).
    apply max0_Fin_bounds; [assumption | apply Qle_refl].
  - (* -Infinity *)
    exists 0. split; [reflexivity | split; [apply Qle_refl | assumption]].
Qed.

Lemma Qeq_bool_false_of_pos (w : Q) : 0 < w -> Qeq_bool w 0 = false.
Proof.
  intro H. destruct (Qeq_bool w 0) eqn:E; [|reflexivity].
  apply Qeq_bool_eq in E. rewrite E in H. discriminate.
Qed.

(** The measured width is [k / 10000] for an integer [k]. *)
Lemma updateWidth_grid (c : Container) (r : Q) :
  width (updateWidth c (Fin r)) =
  Fin (inject_Z (Qfloor (r * 10000 + (1 # 2))) / 10000).
Proof. reflexivity. Qed.

(* ------------------------------------------------------------------ *)
(** ** Geometry: index and offset *)

(** C3: for a positive measured tab width, converting an integer index
    in [[0, tabCount - 1]] to an offset and back gives the index again,
    to within [1e-4] (the measured width lies on the [1e-4] grid, so the
    round trip is in fact exact). *)
Theorem positionToIndex_indexToPosition_roundtrip
    (c : Container) (rectWidth w : Q) (tabCount i : Z) :
  width (updateWidth c (Fin rectWidth)) = Fin w -> 0 < w ->
  (0 <= i <= tabCount - 1)%Z ->
  exists q,
    positionToIndex (updateWidth c (Fin rectWidth))
      (indexToPosition (updateWidth c (Fin rectWidth)) (Fin (inject_Z i)))
    = Fin q /\ Qabs (q - inject_Z i) <= 1 # 10000.
Proof.
  intros Hw Hpos _.
  set (k := Qfloor (rectWidth * 10000 + (1 # 2))).
  assert (Ew : w == inject_Z k / 10000).
  { rewrite updateWidth_grid in Hw. inversion Hw. reflexivity. }
  unfold positionToIndex, indexToPosition. rewrite Hw.
  cbn [mul round].
  assert (Ek : Qfloor (inject_Z i * w * 10000 + (1 # 2)) = (i * k)%Z).
  { rewrite <- Qfloor_int_half. apply Qfloor_comp.
    rewrite Ew, inject_Z_mult. field. }
  rewrite Ek. cbn [div].
  change (Qeq_bool 10000 0) with false. cbv iota. cbn [div].
  rewrite (Qeq_bool_false_of_pos w Hpos).
  eexists. split; [reflexivity|].
  assert (Hk : ~ inject_Z k == 0).
  { intro H0. rewrite Ew, H0 in Hpos. discriminate. }
  setoid_replace (inject_Z (i * k) / 10000 / w - inject_Z i) with 0.
  - discriminate.
  - rewrite Ew, inject_Z_mult. field. exact Hk.
Qed.




(** C5: with [tabCount >= 1], [tabWidth >= 0] and a scrollable width of
    [tabCount * tabWidth], [getNormalizedScrollX] returns a number in
    [[0, (tabCount - 1) * tabWidth]] for every offset that is not [NaN],
    negative, past the end and infinite offsets included. *)
Theorem getNormalizedScrollX_in_range (tabCount : Z) (tabWidth d : Q) (sl : num) :
  (1 <= tabCount)%Z -> 0 <= tabWidth -> isNaN sl = false ->
  exists q,
    getNormalizedScrollX
      (mkScrollElement (Fin (inject_Z tabCount * tabWidth)) sl) (Fin tabWidth) (Fin d)
    = Fin q /\ 0 <= q <= (inject_Z tabCount - 1) * tabWidth.
Proof.
  intros Hn Hw Hsl.
  assert (Ea : inject_Z tabCount * tabWidth + - tabWidth
               == (inject_Z tabCount - 1) * tabWidth) by ring.
  assert (Ha : 0 <= (inject_Z tabCount - 1) * tabWidth).
  { apply Qmult_le_0_compat; [|assumption].
    rewrite <- (Qplus_opp_r 1). apply Qplus_le_l.
    change 1 with (inject_Z 1). rewrite <- Zle_Qle. exact Hn. }
  rewrite <- Ea in Ha.
  unfold getNormalizedScrollX. cbn [el_scrollWidth el_scrollLeft sub neg].
  assert (Hx : isNaN (add sl (Fin d)) = false)
    by (destruct sl; try discriminate; reflexivity).
  destruct (clamp_bounds _ _ Ha Hx) as [q [Eq Hq]].
  exists q. split; [exact Eq|]. rewrite <- Ea. exact Hq.
Qed.

(* ------------------------------------------------------------------ *)
(** ** Easing *)

(** C8: on [[0, 1]] the implemented [easeInOutCubic] is, in exact
    arithmetic, the curve of the specification
    [t < 0.5 ? 4t^3 : 1 - (-2t + 2)^3 / 2]. *)
Theorem easeInOutCubic_refines_spec (t : Q) :
  0 <= t <= 1 ->
  exists q, easeInOutCubic (Fin t) = Fin q /\ q == easeInOutCubic_spec t.
Proof.
  intros _. unfold easeInOutCubic, easeInOutCubic_spec.
  rewrite ltb_Fin. destruct (Qle_bool (1 # 2) t); cbn [negb mul add sub neg].
  - eexists. split; [reflexivity|]. field.
  - eexists. split; [reflexivity|]. ring.
Qed.

(* ------------------------------------------------------------------ *)
(** ** Releasing a drag *)

(** The three outcomes of [Math.max(0, Math.min(A, P))]. *)
Lemma clamp_cases (A P : Q) :
  0 <= A ->
  exists Y, max (Fin 0) (min (Fin A) (Fin P)) = Fin Y /\
    ((P <= 0 /\ Y == 0) \/ (A <= P /\ Y == A) \/ (0 <= P <= A /\ Y == P)).
Proof.
  intro HA. rewrite min_Fin. destruct (Qle_bool A P) eqn:EAP.
  - apply Qle_bool_iff in EAP. rewrite max_Fin. destruct (Qle_bool A 0) eqn:EA0.
    + apply Qle_bool_iff in EA0. exists 0. split; [reflexivity|].
      right; left. split; [exact EAP | apply Qle_antisym; assumption].
    + exists A. split; [reflexivity|]. right; left. split; [exact EAP | reflexivity].
  - apply Qle_bool_false in EAP. rewrite max_Fin. destruct (Qle_bool P 0) eqn:EP0.
    + apply Qle_bool_iff in EP0. exists 0. split; [reflexivity|].
      left. split; [exact EP0 | reflexivity].
    + apply Qle_bool_false in EP0. exists P. split; [reflexivity|].
      right; right. split; [split; apply Qlt_le_weak; assumption | reflexivity].
Qed.

(** Rounding a clamped, shifted fractional index: rounding the shifted
    value and clamping to [[0, N]] gives the same integer. *)
Lemma round_clamp_shift (s w Y : Q) (N z : Z) :
  0 < w -> (0 <= N)%Z ->
  let v := s + inject_Z z in
  ((v * w <= 0 /\ Y == 0) \/ (inject_Z N * w <= v * w /\ Y == inject_Z N * w) \/
   (0 <= v * w <= inject_Z N * w /\ Y == v * w)) ->
  Qfloor (Y / w + (1 # 2)) = Z.max 0 (Z.min N (Qfloor (s + (1 # 2)) + z)).
Proof.
  intros Hw HN v H.
  assert (Hwnz : ~ w == 0) by (intro E; rewrite E in Hw; discriminate).
  assert (Ev : (Qfloor (s + (1 # 2)) + z)%Z = Qfloor (v + (1 # 2))).
  { rewrite <- Qfloor_shift. apply Qfloor_comp. subst v. ring. }
  rewrite Ev.
  assert (F0 : Qfloor (0 + (1 # 2)) = 0%Z) by reflexivity.
  assert (FN : Qfloor (inject_Z N + (1 # 2)) = N) by apply Qfloor_int_half.
  destruct H as [[Hv HY] | [[Hv HY] | [[Hv0 HvN] HY]]].
  - assert (Hv' : v <= 0).
    { apply (Qmult_le_r _ _ w Hw). rewrite Qmult_0_l. exact Hv. }
    assert (R : Qfloor (Y / w + (1 # 2)) = 0%Z).
    { rewrite <- F0. apply Qfloor_comp. rewrite HY. field. exact Hwnz. }
    pose proof (Qfloor_resp_le (v + (1 # 2)) (0 + (1 # 2))
                  (Qplus_le_compat _ _ _ _ Hv' (Qle_refl _))).
    rewrite F0 in H. lia.
  - assert (Hv' : inject_Z N <= v) by (apply (Qmult_le_r _ _ w Hw); exact Hv).
    assert (R : Qfloor (Y / w + (1 # 2)) = N).
    { transitivity (Qfloor (inject_Z N + (1 # 2))); [|exact FN]. apply Qfloor_comp. rewrite HY. field. exact Hwnz. }
    pose proof (Qfloor_resp_le (inject_Z N + (1 # 2)) (v + (1 # 2))
                  (Qplus_le_compat _ _ _ _ Hv' (Qle_refl _))).
    rewrite FN in H. lia.
  - assert (Hv0' : 0 <= v).
    { apply (Qmult_le_r _ _ w Hw). rewrite Qmult_0_l. exact Hv0. }
    assert (HvN' : v <= inject_Z N) by (apply (Qmult_le_r _ _ w Hw); exact HvN).
    assert (R : Qfloor (Y / w + (1 # 2)) = Qfloor (v + (1 # 2))).
    { apply Qfloor_comp. rewrite HY. field. exact Hwnz. }
    pose proof (Qfloor_resp_le (0 + (1 # 2)) (v + (1 # 2))
                  (Qplus_le_compat _ _ _ _ Hv0' (Qle_refl _))).
    pose proof (Qfloor_resp_le (v + (1 # 2)) (inject_Z N + (1 # 2))
                  (Qplus_le_compat _ _ _ _ HvN' (Qle_refl _))).
    rewrite F0 in *. rewrite FN in *. lia.
Qed.

Lemma inject_Z_sub (a b : Z) : inject_Z (a - b) = inject_Z a - inject_Z b.
Proof. unfold Z.sub. rewrite inject_Z_plus, inject_Z_opp. reflexivity. Qed.

Lemma grid_width_pos (k : Z) : (0 < k)%Z -> 0 < inject_Z k / 10000.
Proof.
  intro Hk. apply Qlt_shift_div_l; [reflexivity|].
  rewrite Qmult_0_l. change 0 with (inject_Z 0). rewrite <- Zlt_Qlt. exact Hk.
Qed.

Lemma last_offset_nonneg (n : Z) (w : Q) :
  (1 <= n)%Z -> 0 <= w -> 0 <= inject_Z n * w + - w.
Proof.
  intros Hn Hw. setoid_replace (inject_Z n * w + - w) with (inject_Z (n - 1) * w)
    by (rewrite inject_Z_sub; ring).
  apply Qmult_le_0_compat; [|exact Hw].
  change 0 with (inject_Z 0). rewrite <- Zle_Qle. lia.
Qed.

Section Grid.
(** A container whose measured width [k / 10000] is positive, with
    [n >= 1] tabs indexed ([scrollWidth = width * tabs.length]). *)
Variables (c : Container) (k n : Z).
Hypothesis Hk : (0 < k)%Z.
Hypothesis Hn : (1 <= n)%Z.
Hypothesis Hwidth : width c = Fin (inject_Z k / 10000).
Hypothesis Hscroll : scrollWidth c = Fin (inject_Z n * (inject_Z k / 10000)).

Let w := inject_Z k / 10000.

Lemma calcSelectedTab_grid (m : Z) :
  scrollLeft c = Fin (inject_Z m / 10000) ->
  exists s m', calcSelectedTab c = Fin s /\ s * w == inject_Z m' / 10000.
Proof.
  intro Hsl. unfold calcSelectedTab, positionToIndex.
  rewrite Hwidth, Hscroll, Hsl. fold w. cbn [sub add neg].
  assert (Hw : 0 <= w) by (apply Qlt_le_weak, grid_width_pos, Hk).
  destruct (clamp_cases _ (inject_Z m / 10000) (last_offset_nonneg n w Hn Hw))
    as [Y [-> HY]].
  cbn [div]. fold w. rewrite (Qeq_bool_false_of_pos w (grid_width_pos k Hk)).
  assert (Hwnz : ~ w == 0).
  { intro E. pose proof (grid_width_pos k Hk) as P. fold w in P.
    rewrite E in P. discriminate. }
  assert (EY : exists m', Y == inject_Z m' / 10000).
  { destruct HY as [[_ E] | [[_ E] | [_ E]]].
    - exists 0%Z. rewrite E. reflexivity.
    - exists (n * k - k)%Z. rewrite E. unfold w.
      rewrite inject_Z_sub, inject_Z_mult. field.
    - exists m. exact E. }
  destruct EY as [m' EY]. exists (Y / w), m'. split; [reflexivity|].
  rewrite <- EY. field. exact Hwnz.
Qed.

Lemma normalizeSelectedTab_shift (s : Q) (m' z : Z) :
  s * w == inject_Z m' / 10000 ->
  normalizeSelectedTab c (Fin (s + inject_Z z)) =
  Fin (inject_Z (Z.max 0 (Z.min (n - 1) (Qfloor (s + (1 # 2)) + z)))).
Proof.
  intro Hs.
  assert (Hwpos : 0 < w) by apply (grid_width_pos k Hk).
  assert (Hwnz : ~ w == 0) by (intro E; rewrite E in Hwpos; discriminate).
  unfold normalizeSelectedTab, indexToPosition. rewrite Hwidth. fold w.
  cbn [mul round].
  assert (Ep : Qfloor ((s + inject_Z z) * w * 10000 + (1 # 2)) = (m' + z * k)%Z).
  { transitivity (Qfloor (inject_Z (m' + z * k) + (1 # 2)));
      [|apply Qfloor_int_half].
    apply Qfloor_comp.
    setoid_replace ((s + inject_Z z) * w * 10000)
      with (s * w * 10000 + inject_Z z * inject_Z k)
      by (unfold w; field).
    rewrite Hs, inject_Z_plus, inject_Z_mult. field. }
  rewrite Ep. cbn [div]. change (Qeq_bool 10000 0) with false. cbv iota.
  rewrite Hscroll. fold w. cbn [sub add neg].
  destruct (clamp_cases (inject_Z n * w + - w) (inject_Z (m' + z * k) / 10000)
              (last_offset_nonneg n w Hn (Qlt_le_weak _ _ Hwpos)))
    as [Y [-> HY]].
  cbn [div]. rewrite (Qeq_bool_false_of_pos w Hwpos). cbn [round].
  do 2 f_equal.
  assert (EA : inject_Z n * w + - w == inject_Z (n - 1) * w)
    by (rewrite inject_Z_sub; ring).
  assert (EP : inject_Z (m' + z * k) / 10000 == (s + inject_Z z) * w).
  { setoid_replace ((s + inject_Z z) * w) with (s * w + inject_Z z * w) by ring.
    rewrite Hs. unfold w. rewrite inject_Z_plus, inject_Z_mult. field. }
  apply round_clamp_shift; [exact Hwpos | lia |].
  rewrite EA, EP in HY. exact HY.
Qed.
End Grid.

Lemma lazyLoadTabs_activeTabIndex (c : Container) :
  _activeTabIndex (lazyLoadTabs c) = _activeTabIndex c.
Proof.
  unfold lazyLoadTabs.
  destruct (_activeTabIndex c) eqn:E; [|exact E].
  destruct (config c) as [cfg|]; [|exact E].
  destruct (negb (lazyLoad cfg)); exact E.
Qed.

(** X26: a drag released within [shortSwipeDuration]
    whose rounded fractional index equals the active index commits to
    that rounded index moved one tab in the flick direction ([+1] unless
    the finger moved right, then [-1]), clamped to [[0, tabCount - 1]],
    when the scroll offset at release lies on the [1e-4] grid that
    [indexToPosition] rounds to.  (The measured width always lies on that
    grid.) *)
Theorem onTouchEnd_short_swipe_commit
    (c : Container) (cfg : SuperTabsConfig) (c0 coords : STCoord)
    (x0 x1 t0 now d : Q) (k n m : Z) (a : num) :
  (0 < k)%Z -> (1 <= n)%Z ->
  width c = Fin (inject_Z k / 10000) ->
  scrollWidth c = Fin (inject_Z n * (inject_Z k / 10000)) ->
  scrollLeft c = Fin (inject_Z m / 10000) ->
  swipeEnabled c = true -> isDragging c = true ->
  config c = Some cfg -> shortSwipeDuration cfg = Fin d -> 0 < d ->
  initialTimestamp c = Some (Fin t0) -> now - t0 <= d ->
  initialCoords c = Some c0 -> x c0 = Fin x0 -> x coords = Fin x1 ->
  _activeTabIndex c = Some a -> strict_eq (round (calcSelectedTab c)) a = true ->
  exists s c' effs,
    calcSelectedTab c = Fin s /\
    onTouchEnd c coords (Fin now) = Some (c', effs) /\
    _activeTabIndex c' =
      Some (Fin (inject_Z (Z.max 0 (Z.min (n - 1)
        (Qfloor (s + (1 # 2)) + (if Qle_bool (x1 - x0) 0 then 1 else -1)))))).
Proof.
  intros Hk Hn Hw Hsw Hsl Hen Hdrag Hcfg Hssd Hd Hts Hdt Hc0 Hx0 Hx1 Hact Hround.
  destruct (calcSelectedTab_grid c k n Hk Hn Hw Hsw m Hsl) as [s [m' [Hcalc Hs]]].
  rewrite Hcalc in Hround.
  assert (Ed : Qle_bool d 0 = false).
  { apply not_true_iff_false. intro H. apply Qle_bool_iff in H.
    apply (Qlt_not_le _ _ Hd H). }
  assert (Edt : Qle_bool (now + - t0) d = true) by (apply Qle_bool_iff; exact Hdt).
  unfold onTouchEnd. rewrite Hen, Hdrag, Hcfg, Hc0, Hts, Hact, Hcalc, Hssd, Hx0, Hx1.
  cbn [negb orb ltb leb sub add neg isNaN].
  rewrite Ed, Edt, Hround. cbn [negb andb].
  unfold Qminus.
  destruct (Qle_bool (x1 + - x0) 0); cbn [negb add].
  - change (Fin (s + 1)) with (Fin (s + inject_Z 1)).
    rewrite (normalizeSelectedTab_shift c k n Hk Hn Hw Hsw s m' 1 Hs).
    unfold updateActiveTabIndex. cbn [config set_activeTabIndex]. rewrite Hcfg.
    do 3 eexists. split; [reflexivity | split; [reflexivity|]].
    cbn [fst reset_gesture _activeTabIndex].
    destruct (lazyLoad cfg); [rewrite lazyLoadTabs_activeTabIndex|]; reflexivity.
  - change (Fin (s + -1)) with (Fin (s + inject_Z (-1))).
    rewrite (normalizeSelectedTab_shift c k n Hk Hn Hw Hsw s m' (-1) Hs).
    unfold updateActiveTabIndex. cbn [config set_activeTabIndex]. rewrite Hcfg.
    do 3 eexists. split; [reflexivity | split; [reflexivity|]].
    cbn [fst reset_gesture _activeTabIndex].
    destruct (lazyLoad cfg); [rewrite lazyLoadTabs_activeTabIndex|]; reflexivity.
Qed.

(** The example of the specification: [shortSwipeDuration = 300], a flick
    of 150ms from tab 0 toward tab 1 (finger moving left, 100px into a
    375px tab, four tabs), whose rounded target is still 0, commits to
    tab 1. *)
Lemma onTouchEnd_short_swipe_commit_witness :
  let c := mkContainer (Some (mkConfig false false (Fin 300))) true false []
             (Some (mkCoord (Fin 200) (Fin 0))) (Some (Fin 100)) true
             (Some (Fin 0)) (Some (Fin 0)) None
             (Fin (inject_Z 4 * (inject_Z 3750000 / 10000)))
             (Fin (inject_Z 3750000 / 10000))
             (Fin (inject_Z 1000000 / 10000)) in
  exists s c' effs,
    calcSelectedTab c = Fin s /\
    onTouchEnd c (mkCoord (Fin 100) (Fin 0)) (Fin 150) = Some (c', effs) /\
    _activeTabIndex c' =
      Some (Fin (inject_Z (Z.max 0 (Z.min (4 - 1)
        (Qfloor (s + (1 # 2)) + (if Qle_bool (100 - 200) 0 then 1 else -1)))))).
Proof.
  intro c.
  apply (onTouchEnd_short_swipe_commit c (mkConfig false false (Fin 300))
           (mkCoord (Fin 200) (Fin 0)) (mkCoord (Fin 100) (Fin 0))
           200 100 0 150 300 3750000 4 1000000 (Fin 0));
    first [reflexivity | lia | apply Qle_bool_iff; reflexivity].
Defined.

(** C6 (code bug): the short-swipe override shifts the rounded index by
    one tab ([selectedTabIndex += +-1]), but commits through
    [normalizeSelectedTab], whose [indexToPosition] rounds the shifted
    offset to a [1e-4] grid; off that grid the rounding can land on a
    half tab, which [Math.round] carries one tab further.  Released at
    [scrollLeft = 187.49996] in a 375px tab, active tab 0, a 150ms flick
    to the left has rounded target 0, so the override means tab 1;
    [indexToPosition(1.49999989...)] is [562.5] and the code commits to
    tab 2. *)
Lemma onTouchEnd_short_swipe_off_grid :
  let c := mkContainer (Some (mkConfig false false (Fin 300))) true false []
             (Some (mkCoord (Fin 200) (Fin 0))) (Some (Fin 100)) true
             (Some (Fin 0)) (Some (Fin 0)) None
             (Fin 1500) (Fin 375) (Fin 187.49996) in
  round (calcSelectedTab c) = Fin 0 /\
  exists c' effs,
    onTouchEnd c (mkCoord (Fin 100) (Fin 0)) (Fin 150) = Some (c', effs) /\
    _activeTabIndex c' = Some (Fin 2).
Proof. split; [reflexivity|]. do 2 eexists. split; reflexivity. Qed.

(* ------------------------------------------------------------------ *)
(** ** Selecting a tab from the root *)

Definition is_active_change (e : effect) : bool :=
  match e with ActiveTabIndexChange _ => true | _ => false end.

Lemma dispatch_no_active_change (r : SuperTabs) (effs : list effect) :
  forallb (fun e => negb (is_active_change e)) effs = true ->
  dispatch r effs = (r, []).
Proof.
  induction effs as [|e effs IH]; [reflexivity|].
  cbn [forallb]. intro H. apply andb_prop in H as [He Hrest].
  destruct e; try discriminate; exact (IH Hrest).
Qed.

Lemma moveContainerByIndex_no_active_change (c : Container) (i : num) (an : bool) :
  forallb (fun e => negb (is_active_change e)) (moveContainerByIndex c i an) = true.
Proof.
  unfold moveContainerByIndex. destruct (_ && _); reflexivity.
Qed.

(** [setActiveTabIndex] is called with [emit = false] inside: it never
    emits [activeTabIndexChange]. *)
Lemma setActiveTabIndex_no_active_change (c : Container) (cfg : SuperTabsConfig)
    (i : num) (mv an : bool) :
  config c = Some cfg ->
  exists c' effs, setActiveTabIndex c i mv an = Some (c', effs) /\
    forallb (fun e => negb (is_active_change e)) effs = true.
Proof.
  intro Hcfg. unfold setActiveTabIndex, updateActiveTabIndex.
  cbn [config set_activeTabIndex]. rewrite Hcfg.
  destruct (_ && negb (autoScrollTop c)).
  - do 2 eexists. split; reflexivity.
  - do 2 eexists. split; [reflexivity|]. cbn [snd].
    rewrite !forallb_app. apply andb_true_intro; split.
    + destruct (match _activeTabIndex c with Some a => _ | None => false end);
        reflexivity.
    + rewrite andb_true_r.
      destruct mv; [apply moveContainerByIndex_no_active_change | reflexivity].
Qed.

(** C1 (code evaluated at the failing input): from active tab 0,
    [selectTab(2)] moves the container and the toolbar and emits
    [{changed: true, index: 2}], yet [activeTabIndex] is 0 afterwards. *)
Lemma selectTab_keeps_previous_activeTabIndex :
  let c := mkContainer (Some (mkConfig false false (Fin 300))) true false []
             None None false None (Some (Fin 0)) None
             (Fin 1500) (Fin 375) (Fin 0) in
  let r := mkSuperTabs (Fin 0) (Some c) (Some (mkToolbar (Fin 0) 4)) in
  exists r' evs,
    selectTab r (Fin 2) true true = Some (r', evs) /\
    evs = [mkDetail true (Fin 2)] /\
    option_map (fun c' => _activeTabIndex c') (container r') = Some (Some (Fin 2)) /\
    option_map tb_activeTabIndex (toolbar r') = Some (Fin 2) /\
    activeTabIndex r' = Fin 0.
Proof. do 2 eexists. repeat split; reflexivity. Qed.

(** C2: re-selecting the current tab ([selectTab(activeTabIndex, animate,
    true)], a non-negative index) emits exactly one [tabChange] event,
    [{index, changed: false}]. *)
Theorem selectTab_current_emits_unchanged (r : SuperTabs) (q : Q) (animate : bool) :
  0 <= q -> activeTabIndex r = Fin q ->
  (forall c, container r = Some c -> exists cfg, config c = Some cfg) ->
  exists r', selectTab r (Fin q) animate true = Some (r', [mkDetail false (Fin q)]).
Proof.
  intros Hq Hact Hcfg.
  assert (Hev : forall r2, activeTabIndex r2 = Fin q ->
            emitTabChangeEvent r2 (Fin q) (Some (Fin q)) = [mkDetail false (Fin q)]).
  { intros r2 _. unfold emitTabChangeEvent. cbn [ltb].
    assert (E : Qle_bool 0 q = true) by (apply Qle_bool_iff; exact Hq).
    rewrite E. cbn [negb strict_eq]. rewrite Qeq_bool_refl. reflexivity. }
  unfold selectTab. rewrite Hact.
  destruct (container r) as [c|] eqn:Ec.
  - destruct (Hcfg c eq_refl) as [cfg Hc].
    destruct (setActiveTabIndex_no_active_change c cfg (Fin q) true animate Hc)
      as [c' [effs [-> Heffs]]].
    cbn [fst snd]. rewrite (dispatch_no_active_change _ _ Heffs). cbn [fst snd].
    rewrite Hev.
    + eexists. reflexivity.
    + unfold toolbar_setActiveTab. destruct (toolbar _); exact Hact.
  - cbn [fst snd]. rewrite Hev.
    + eexists. reflexivity.
    + unfold toolbar_setActiveTab. destruct (toolbar r); exact Hact.
Qed.

(** C2 witness: tab 1 re-selected in a four-tab component. *)
Lemma selectTab_current_emits_unchanged_witness :
  exists r',
    selectTab (mkSuperTabs (Fin 1)
                 (Some (mkContainer (Some (mkConfig false false (Fin 300))) true false []
                          None None false None (Some (Fin 1)) None
                          (Fin 1500) (Fin 375) (Fin 375)))
                 (Some (mkToolbar (Fin 1) 4)))
      (Fin 1) true true = Some (r', [mkDetail false (Fin 1)]).
Proof.
  apply selectTab_current_emits_unchanged.
  - apply Qle_bool_iff. reflexivity.
  - reflexivity.
  - intros c Hc. injection Hc as <-. eexists. reflexivity.
Defined.

(* ------------------------------------------------------------------ *)
(** ** Lazy loading *)

Lemma lazyLoadLoop_length cfg mn mx j ts :
  length (lazyLoadLoop cfg mn mx j ts) = length ts.
Proof. revert j. induction ts; intro j; simpl; [reflexivity | rewrite IHts; reflexivity]. Qed.

Lemma lazyLoadLoop_nth cfg mn mx (j i : nat) ts t :
  nth_error ts i = Some t ->
  nth_error (lazyLoadLoop cfg mn mx j ts) i =
  Some (let idx := Fin (inject_Z (Z.of_nat (j + i))) in
        let vis := leb mn idx && leb idx mx in
        {| visible := vis;
           loaded := vis || (if unloadWhenInvisible cfg then false else loaded t) |}).
Proof.
  revert i j. induction ts as [|t0 ts IH]; intros i j H.
  - destruct i; discriminate.
  - destruct i as [|i]; cbn in H.
    + injection H as ->. cbn. rewrite Nat.add_0_r. reflexivity.
    + cbn [lazyLoadLoop nth_error]. rewrite (IH i (S j) H).
      rewrite Nat.add_succ_r. reflexivity.
Qed.

Lemma leb_Fin (a b : Q) : leb (Fin a) (Fin b) = Qle_bool a b.
Proof. unfold leb. cbn. destruct (Qle_bool a b); reflexivity. Qed.

(** C7: with [lazyLoad] on, tab [i] is visible iff
    [a - 1 <= i <= a + 1], a visible tab is loaded, and a tab outside
    the window is unloaded exactly when [unloadWhenInvisible] is on and
    keeps its [loaded] flag otherwise; with [lazyLoad] off every tab is
    loaded and visible.  No tab is added or removed. *)
Theorem lazyLoadTabs_liveness (c : Container) (cfg : SuperTabsConfig) (a : Q) :
  config c = Some cfg -> _activeTabIndex c = Some (Fin a) ->
  length (tabs (lazyLoadTabs c)) = length (tabs c) /\
  (lazyLoad cfg = true ->
     forall i t, nth_error (tabs c) i = Some t ->
       exists t', nth_error (tabs (lazyLoadTabs c)) i = Some t' /\
         visible t' = Qle_bool (a - 1) (inject_Z (Z.of_nat i))
                      && Qle_bool (inject_Z (Z.of_nat i)) (a + 1) /\
         (visible t' = true -> loaded t' = true) /\
         (visible t' = false ->
            loaded t' = if unloadWhenInvisible cfg then false else loaded t)) /\
  (lazyLoad cfg = false ->
     forall t', In t' (tabs (lazyLoadTabs c)) -> loaded t' = true /\ visible t' = true).
Proof.
  intros Hcfg Hact. unfold lazyLoadTabs. rewrite Hact, Hcfg.
  destruct (lazyLoad cfg) eqn:Elazy; cbn [negb tabs set_tabs].
  - split; [apply lazyLoadLoop_length|]. split; [|discriminate].
    intros _ i t Ht. rewrite (lazyLoadLoop_nth cfg _ _ 0 i _ t Ht).
    eexists. split; [reflexivity|]. cbn [visible loaded sub add neg].
    rewrite !leb_Fin. unfold Qminus.
    split; [reflexivity|]. split.
    + intro H. rewrite H. reflexivity.
    + intro H. rewrite H. reflexivity.
  - split; [apply length_map|]. split; [discriminate|].
    intros _ t' Hin. apply in_map_iff in Hin as [t0 [<- _]]. split; reflexivity.
Qed.

(** C7 witness: the lazy window of the specification, [ActiveIndex = 3],
    six tabs of which only tab 5 was loaded before. *)
Lemma lazyLoadTabs_liveness_witness :
  let c := mkContainer (Some (mkConfig true false (Fin 300))) true false
             [mkTab false false; mkTab false false; mkTab false false;
              mkTab true true; mkTab false false; mkTab true true]
             None None false None (Some (Fin 3)) None
             (Fin 1500) (Fin 375) (Fin 1125) in
  length (tabs (lazyLoadTabs c)) = length (tabs c) /\
  (lazyLoad (mkConfig true false (Fin 300)) = true ->
     forall i t, nth_error (tabs c) i = Some t ->
       exists t', nth_error (tabs (lazyLoadTabs c)) i = Some t' /\
         visible t' = Qle_bool (3 - 1) (inject_Z (Z.of_nat i))
                      && Qle_bool (inject_Z (Z.of_nat i)) (3 + 1) /\
         (visible t' = true -> loaded t' = true) /\
         (visible t' = false ->
            loaded t' = if unloadWhenInvisible (mkConfig true false (Fin 300))
                        then false else loaded t)) /\
  (lazyLoad (mkConfig true false (Fin 300)) = false ->
     forall t', In t' (tabs (lazyLoadTabs c)) -> loaded t' = true /\ visible t' = true).
Proof. intro c. apply lazyLoadTabs_liveness; reflexivity. Defined.

(* ------------------------------------------------------------------ *)
(** ** The initialisation retry loop *)

Lemma runFrames_bounded (present : nat -> bool) :
  forall (fuel j f0 : nat) (st : InitState),
  initAttempts st = Z.of_nat j -> (j <= 1000)%nat -> (1001 - j <= fuel)%nat ->
  exists f st', runFrames fuel present f0 st = Some (f, st') /\
    (f0 <= f <= f0 + (1000 - j))%nat /\ initResolved st' = true /\
    ((forall i, present i = false) ->
       f = (f0 + (1000 - j))%nat /\ In init_diagnostic (debugLog st')).
Proof.
  induction fuel as [|fuel IH]; intros j f0 st Hj Hle Hfuel; [lia|].
  cbn [runFrames]. unfold initComponent. cbn [hasContainer initAttempts].
  destruct (present f0) eqn:Ep; cbn [negb].
  - exists f0. eexists. split; [reflexivity|]. split; [lia|]. split; [reflexivity|].
    intro Hall. rewrite Hall in Ep. discriminate.
  - rewrite Hj. destruct (Z.of_nat j + 1 <=? maxInitRetries)%Z eqn:Eb.
    + apply Z.leb_le in Eb. unfold maxInitRetries in Eb.
      destruct (IH (S j) (S f0)
                  {| hasContainer := false; initAttempts := (Z.of_nat j + 1)%Z;
                     debugLog := debugLog st; initResolved := initResolved st |})
        as [f [st' [Hrun [Hf [Hres Hall]]]]]; cbn [initAttempts]; try lia.
      exists f, st'. split; [exact Hrun|]. split; [lia|]. split; [exact Hres|].
      intro H. destruct (Hall H) as [Hf' Hin]. split; [lia | exact Hin].
    + apply Z.leb_gt in Eb. unfold maxInitRetries in Eb.
      exists f0. eexists. split; [reflexivity|]. split; [lia|]. split; [reflexivity|].
      intros _. split; [lia|]. cbn. apply in_or_app. right. left. reflexivity.
Qed.

(** C9: starting from [initAttempts = 0], the retry loop of
    [initComponent] ends within [maxInitRetries + 1] frames whatever
    happens to the container, after at most [maxInitRetries] reschedules,
    and resolves [initPromise]; if the container never appears it
    reschedules exactly [maxInitRetries] times, then logs the diagnostic
    and finishes. *)
Theorem initComponent_retry_bounded (present : nat -> bool) :
  exists f st',
    runFrames (S (Z.to_nat maxInitRetries)) present 0 initState0 = Some (f, st') /\
    (Z.of_nat f <= maxInitRetries)%Z /\ initResolved st' = true /\
    ((forall i, present i = false) ->
       Z.of_nat f = maxInitRetries /\ In init_diagnostic (debugLog st')).
Proof.
  destruct (runFrames_bounded present (S (Z.to_nat maxInitRetries)) 0 0 initState0)
    as [f [st' [Hrun [Hf [Hres Hall]]]]]; try reflexivity; try (cbn; lia).
  exists f, st'. split; [exact Hrun|]. unfold maxInitRetries. split; [lia|].
  split; [exact Hres|]. intro H. destruct (Hall H) as [Hf' Hin]. split; [lia | exact Hin].
Qed.

(** C9 witness: the container never appears. *)
Lemma initComponent_retry_bounded_witness :
  exists f st',
    runFrames (S (Z.to_nat maxInitRetries)) (fun _ => false) 0 initState0 = Some (f, st') /\
    (Z.of_nat f <= maxInitRetries)%Z /\ initResolved st' = true /\
    ((forall i : nat, false = false) ->
       Z.of_nat f = maxInitRetries /\ In init_diagnostic (debugLog st')).
Proof. apply (initComponent_retry_bounded (fun _ => false)). Defined.

(* ------------------------------------------------------------------ *)
(** ** selectedTabIndexChange *)

Lemma selected_values_app (e1 e2 : list effect) :
  selected_values (e1 ++ e2) = selected_values e1 ++ selected_values e2.
Proof.
  induction e1 as [|e e1 IH]; [reflexivity|].
  destruct e; cbn; rewrite IH; reflexivity.
Qed.

(** C10: [updateSelectedTabIndex(index)] does nothing when [index ===]
    the stored selected index, and otherwise stores [index] and emits it
    once; hence, over any sequence of calls, no emitted value is [===]
    to the one emitted just before it (nor, for the first, to the value
    stored before the sequence). *)
Theorem updateSelectedTabIndex_never_repeats (c : Container) (indices : list num) :
  (forall i,
     updateSelectedTabIndex c i =
     if match _selectedTabIndex c with Some s => strict_eq i s | None => false end
     then (c, [])
     else (set_selectedTabIndex c (Some i), [SelectedTabIndexChange i])) /\
  strictly_changing (_selectedTabIndex c)
    (selected_values (snd (updateSelectedTabIndex_run c indices))) = true.
Proof.
  split; [intro i; reflexivity|].
  revert c. induction indices as [|i rest IH]; intro c; [reflexivity|].
  cbn [updateSelectedTabIndex_run]. unfold updateSelectedTabIndex at 1.
  destruct (match _selectedTabIndex c with Some s => strict_eq i s | None => false end)
    eqn:Esame.
  - destruct (updateSelectedTabIndex_run c rest) as [c2 e2] eqn:Er.
    cbn [snd app]. specialize (IH c). rewrite Er in IH. exact IH.
  - destruct (updateSelectedTabIndex_run (set_selectedTabIndex c (Some i)) rest)
      as [c2 e2] eqn:Er.
    cbn [snd app selected_values strictly_changing].
    specialize (IH (set_selectedTabIndex c (Some i))). rewrite Er in IH.
    cbn [snd _selectedTabIndex set_selectedTabIndex] in IH. rewrite IH, andb_true_r.
    destruct (_selectedTabIndex c); [rewrite Esame|]; reflexivity.
Qed.

(* ------------------------------------------------------------------ *)
(** ** Witnesses *)

(** C3 witness: a 375px tab, four tabs, index 2 (offset 750). *)
Lemma positionToIndex_indexToPosition_roundtrip_witness :
  exists q,
    positionToIndex
      (updateWidth (mkContainer None true false [] None None false None None None
                      (Fin 0) (Fin 0) (Fin 0)) (Fin 375))
      (indexToPosition
         (updateWidth (mkContainer None true false [] None None false None None None
                         (Fin 0) (Fin 0) (Fin 0)) (Fin 375))
         (Fin (inject_Z 2)))
    = Fin q /\ Qabs (q - inject_Z 2) <= 1 # 10000.
Proof.
  apply (positionToIndex_indexToPosition_roundtrip _ 375 (inject_Z 3750000 / 10000) 4 2);
    [reflexivity | reflexivity | lia].
Defined.


(** C5 witness: four 300px tabs and an offset of -50 + 2000, past the end. *)
Lemma getNormalizedScrollX_in_range_witness :
  exists q,
    getNormalizedScrollX (mkScrollElement (Fin (inject_Z 4 * 300)) (Fin (-50)))
      (Fin 300) (Fin 2000)
    = Fin q /\ 0 <= q <= (inject_Z 4 - 1) * 300.
Proof.
  apply getNormalizedScrollX_in_range.
  - lia.
  - apply Qle_bool_iff. reflexivity.
  - reflexivity.
Defined.

(** C8 witness: [t = 3/4]. *)
Lemma easeInOutCubic_refines_spec_witness :
  exists q, easeInOutCubic (Fin (3 # 4)) = Fin q /\ q == easeInOutCubic_spec (3 # 4).
Proof.
  apply easeInOutCubic_refines_spec.
  split; apply Qle_bool_iff; reflexivity.
Defined.

(* ------------------------------------------------------------------ *)
(** ** The toolbar, the scroll animation and the gestures *)

Lemma Qle_bool_compat (a a' b b' : Q) :
  a == a' -> b == b' -> Qle_bool a b = Qle_bool a' b'.
Proof.
  intros Ea Eb. destruct (Qle_bool a' b') eqn:E.
  - apply Qle_bool_iff. apply Qle_bool_iff in E. rewrite Ea, Eb. exact E.
  - destruct (Qle_bool a b) eqn:E'; [|reflexivity].
    apply Qle_bool_iff in E'. rewrite Ea, Eb in E'. apply Qle_bool_iff in E'. congruence.
Qed.

Lemma Qle_bool_int (a b : Z) : Qle_bool (inject_Z a) (inject_Z b) = (a <=? b)%Z.
Proof.
  destruct (Z.leb_spec a b) as [H|H].
  - apply Qle_bool_iff. rewrite <- Zle_Qle. exact H.
  - destruct (Qle_bool (inject_Z a) (inject_Z b)) eqn:E; [|reflexivity].
    apply Qle_bool_iff in E. rewrite <- Zle_Qle in E. lia.
Qed.

(** [Math.max(0, Math.min(f, M))] on integers. *)
Lemma clamp_int (f M : Z) (A : Q) :
  A == inject_Z M ->
  exists z q, max (Fin 0) (min (Fin (inject_Z f)) (Fin A)) = Fin q /\
    q == inject_Z z /\ (0 <= z <= Z.max 0 M)%Z.
Proof.
  intro HA. rewrite min_Fin.
  rewrite (Qle_bool_compat _ _ _ _ (Qeq_refl _) HA), Qle_bool_int.
  destruct (Z.leb_spec f M) as [H|H]; rewrite max_Fin.
  - change 0 with (inject_Z 0). rewrite Qle_bool_int.
    destruct (Z.leb_spec f 0).
    + exists 0%Z, (inject_Z 0). repeat split; try reflexivity; lia.
    + exists f, (inject_Z f). repeat split; try reflexivity; lia.
  - rewrite (Qle_bool_compat _ _ _ _ HA (Qeq_refl _)).
    change 0 with (inject_Z 0). rewrite Qle_bool_int.
    destruct (Z.leb_spec M 0).
    + exists 0%Z, (inject_Z 0). repeat split; try reflexivity; lia.
    + exists M, A. repeat split; try exact HA; lia.
Qed.

(** X1: the toolbar's [setActiveTab] turns every index that is not
    [NaN] (fractional, negative, past the end, infinite) into an integer
    in [[0, buttons.length - 1]]; with no button it is [0]. *)
Theorem toolbar_setActiveTab_in_range (t : Toolbar) (i : num) (align animate : bool) :
  isNaN i = false ->
  exists z q, tb_activeTabIndex (setActiveTab t i align animate) = Fin q /\
    q == inject_Z z /\ (0 <= z <= Z.max 0 (Z.of_nat (buttonCount t) - 1))%Z.
Proof.
  intro Hi. unfold setActiveTab. cbn [tb_activeTabIndex].
  set (N := Z.of_nat (buttonCount t)).
  assert (HA : inject_Z N + - (1) == inject_Z (N - 1)) by (rewrite inject_Z_sub; ring).
  destruct i as [q| | |]; try discriminate; cbn [round sub add neg].
  - apply clamp_int. exact HA.
  - change (min PosInf (Fin (inject_Z N + - (1)))) with (Fin (inject_Z N + - (1))).
    rewrite max_Fin.
    rewrite (Qle_bool_compat _ (inject_Z (N - 1)) 0 (inject_Z 0) HA (Qeq_refl 0)).
    rewrite Qle_bool_int. destruct (Z.leb_spec (N - 1) 0).
    + exists 0%Z, 0. repeat split; try reflexivity; lia.
    + exists (N - 1)%Z, (inject_Z N + - (1)). repeat split; try exact HA; lia.
  - exists 0%Z, 0. repeat split; try reflexivity; lia.
Qed.

(** X2: measuring rounds the bounding-rect width to the [1e-4] grid in
    the container ([updateWidth]) and to the [1e-2] grid in the toolbar
    ([updateWidth] of the toolbar): the stored width is within half a
    grid step of the measured one. *)
Theorem updateWidth_precision (c : Container) (s : TB.ToolbarState) (r : Q) :
  (exists w, width (updateWidth c (Fin r)) = Fin w /\ Qabs (w - r) <= 1 # 20000) /\
  (exists w, TB.tb_width (TB.updateWidth s (Fin r)) = Fin w /\ Qabs (w - r) <= 1 # 200).
Proof.
  split.
  - rewrite updateWidth_grid. eexists. split; [reflexivity|].
    set (f := inject_Z (Qfloor (r * 10000 + (1 # 2)))).
    pose proof (Qfloor_le (r * 10000 + (1 # 2))) as H.
    pose proof (Qlt_floor (r * 10000 + (1 # 2))) as H0.
    rewrite inject_Z_plus in H0. change (inject_Z 1) with 1 in H0. fold f in H, H0.
    apply Qabs_Qle_condition.
    setoid_replace (f / 10000 - r) with ((f - r * 10000) * (1 # 10000)) by field.
    split; lra.
  - cbn [TB.updateWidth TB.tb_width round mul div].
    change (Qeq_bool 100 0) with false. cbv iota.
    eexists. split; [reflexivity|].
    set (f := inject_Z (Qfloor (r * 100 + (1 # 2)))).
    pose proof (Qfloor_le (r * 100 + (1 # 2))) as H.
    pose proof (Qlt_floor (r * 100 + (1 # 2))) as H0.
    rewrite inject_Z_plus in H0. change (inject_Z 1) with 1 in H0. fold f in H, H0.
    apply Qabs_Qle_condition.
    setoid_replace (f / 100 - r) with ((f - r * 100) * (1 # 100)) by field.
    split; lra.
Qed.

Lemma easeInOutCubic_Fin (t : Q) : easeInOutCubic (Fin t) = Fin (ease_q t).
Proof.
  unfold easeInOutCubic, ease_q. rewrite ltb_Fin.
  destruct (Qle_bool (1 # 2) t); reflexivity.
Qed.

Lemma cube_mono (a b : Q) : 0 <= a -> a <= b -> a * a * a <= b * b * b.
Proof.
  intros Ha Hab.
  assert (0 <= a * a) by nra.
  assert (0 <= (b - a) * (b * b + a * b + a * a))
    by (apply Qmult_le_0_compat; nra).
  nra.
Qed.

Lemma cube_le_eighth (u : Q) : 0 <= u -> u <= 1 # 2 -> u * u * u <= 1 # 8.
Proof.
  intros H0 H1. pose proof (cube_mono u (1 # 2) H0 H1) as H.
  setoid_replace ((1 # 2) * (1 # 2) * (1 # 2)) with (1 # 8) in H by reflexivity.
  exact H.
Qed.

(** On the upper half the curve is [1 - 4 (1 - t)^3]. *)
Lemma ease_q_upper (t : Q) :
  (t + - (1)) * (2 * t + - (2)) * (2 * t + - (2)) + 1
  == 1 - 4 * ((1 - t) * (1 - t) * (1 - t)).
Proof. ring. Qed.

Lemma ease_q_bounds (t : Q) : 0 <= t <= 1 -> 0 <= ease_q t <= 1.
Proof.
  intros [H0 H1]. unfold ease_q. destruct (Qle_bool (1 # 2) t) eqn:E.
  - apply Qle_bool_iff in E. rewrite ease_q_upper.
    assert (0 <= (1 - t) * (1 - t) * (1 - t))
      by (apply Qmult_le_0_compat; [apply Qmult_le_0_compat|]; lra).
    pose proof (cube_le_eighth (1 - t)) as C.
    assert ((1 - t) * (1 - t) * (1 - t) <= 1 # 8) by (apply C; lra).
    split; lra.
  - apply Qle_bool_false in E.
    assert (0 <= t * t * t)
      by (apply Qmult_le_0_compat; [apply Qmult_le_0_compat|]; lra).
    assert (t * t * t <= 1 # 8) by (apply cube_le_eighth; lra).
    setoid_replace (4 * t * t * t) with (4 * (t * t * t)) by ring.
    split; lra.
Qed.

Lemma ease_q_mono (t1 t2 : Q) :
  0 <= t1 -> t1 <= t2 -> t2 <= 1 -> ease_q t1 <= ease_q t2.
Proof.
  intros H0 H12 H2. unfold ease_q.
  destruct (Qle_bool (1 # 2) t1) eqn:E1, (Qle_bool (1 # 2) t2) eqn:E2.
  - apply Qle_bool_iff in E1. rewrite !ease_q_upper.
    pose proof (cube_mono (1 - t2) (1 - t1)) as C.
    assert ((1 - t2) * (1 - t2) * (1 - t2) <= (1 - t1) * (1 - t1) * (1 - t1))
      by (apply C; lra).
    lra.
  - apply Qle_bool_iff in E1. apply Qle_bool_false in E2. lra.
  - apply Qle_bool_false in E1. apply Qle_bool_iff in E2. rewrite ease_q_upper.
    assert (t1 * t1 * t1 <= 1 # 8) by (apply cube_le_eighth; lra).
    assert ((1 - t2) * (1 - t2) * (1 - t2) <= 1 # 8) by (apply cube_le_eighth; lra).
    setoid_replace (4 * t1 * t1 * t1) with (4 * (t1 * t1 * t1)) by ring.
    lra.
  - pose proof (cube_mono t1 t2 H0 H12).
    setoid_replace (4 * t1 * t1 * t1) with (4 * (t1 * t1 * t1)) by ring.
    setoid_replace (4 * t2 * t2 * t2) with (4 * (t2 * t2 * t2)) by ring.
    lra.
Qed.

(** X3: on [[0, 1]], [easeInOutCubic] is non-decreasing, stays in
    [[0, 1]], and maps [0] to [0] and [1] to [1]. *)
Theorem easeInOutCubic_monotone_unit (t1 t2 : Q) :
  0 <= t1 -> t1 <= t2 -> t2 <= 1 ->
  exists e1 e2, easeInOutCubic (Fin t1) = Fin e1 /\ easeInOutCubic (Fin t2) = Fin e2 /\
    0 <= e1 /\ e1 <= e2 /\ e2 <= 1 /\
    easeInOutCubic (Fin 0) = Fin 0 /\ easeInOutCubic (Fin 1) = Fin 1.
Proof.
  intros H0 H12 H2. exists (ease_q t1), (ease_q t2).
  rewrite !easeInOutCubic_Fin.
  pose proof (ease_q_bounds t1 (conj H0 (Qle_trans _ _ _ H12 H2))) as B1.
  pose proof (ease_q_bounds t2 (conj (Qle_trans _ _ _ H0 H12) H2)) as B2.
  repeat split; try reflexivity.
  - apply B1.
  - apply ease_q_mono; assumption.
  - apply B2.
Qed.

Lemma Qdiv_ge_one (a d : Q) : 0 < d -> d <= a -> 1 <= a / d.
Proof.
  intros Hd Ha. apply Qle_shift_div_l; [exact Hd|]. rewrite Qmult_1_l. exact Ha.
Qed.

(** One frame of [scroll]: the offset is [Math.ceil] of a point between
    [start] and [dest], and of [dest] itself once [duration] has elapsed. *)
Lemma getScrollCoord_frame (start dest st now d : Q) :
  0 < d -> st <= now ->
  exists v, getScrollCoord (Fin start) (Fin dest) (Fin st) (Fin now) (Fin d)
            = Fin (inject_Z (Qceiling v)) /\
    ((start <= v <= dest) \/ (dest <= v <= start)) /\
    (st + d <= now -> v == dest).
Proof.
  intros Hd Hnow. unfold getScrollCoord. cbn [sub add neg div].
  rewrite (Qeq_bool_false_of_pos d Hd). rewrite min_Fin.
  set (r := (now + - st) / d).
  assert (Hr0 : 0 <= r).
  { unfold r. apply Qle_shift_div_l; [exact Hd|]. rewrite Qmult_0_l. lra. }
  set (t := if Qle_bool 1 r then 1 else r).
  assert (Ht : (if Qle_bool 1 r then Fin 1 else Fin r) = Fin t)
    by (unfold t; destruct (Qle_bool 1 r); reflexivity).
  rewrite Ht, easeInOutCubic_Fin. cbn [mul add ceil].
  assert (Ht01 : 0 <= t <= 1).
  { unfold t. destruct (Qle_bool 1 r) eqn:E.
    - split; [discriminate | apply Qle_refl].
    - apply Qle_bool_false in E. split; [exact Hr0 | apply Qlt_le_weak; exact E]. }
  pose proof (ease_q_bounds t Ht01) as [He0 He1].
  eexists. split; [reflexivity|]. split.
  - destruct (Qlt_le_dec dest start) as [Hlt|Hle].
    + right. assert (0 <= ease_q t * (start - dest)) by (apply Qmult_le_0_compat; lra).
      assert (0 <= (1 - ease_q t) * (start - dest)) by (apply Qmult_le_0_compat; lra).
      split; nra.
    + left. assert (0 <= ease_q t * (dest - start)) by (apply Qmult_le_0_compat; lra).
      assert (0 <= (1 - ease_q t) * (dest - start)) by (apply Qmult_le_0_compat; lra).
      split; nra.
  - intro Hend.
    assert (E1 : Qle_bool 1 r = true).
    { apply Qle_bool_iff. unfold r. apply Qdiv_ge_one; [exact Hd | lra]. }
    unfold t. rewrite E1. change (ease_q 1) with 1. ring.
Qed.

(** X4: every frame of the scroll animation ([getScrollCoord]) scrolls
    to [Math.ceil] of a point between the start and the destination, and
    from the frame at which [duration] has elapsed on, to
    [Math.ceil(dest)]. *)
Theorem getScrollCoord_between (start dest st now d : Q) :
  0 < d -> st <= now ->
  exists v, getScrollCoord (Fin start) (Fin dest) (Fin st) (Fin now) (Fin d)
            = Fin (inject_Z (Qceiling v)) /\
    ((start <= v <= dest) \/ (dest <= v <= start)) /\
    (st + d <= now -> v == dest).
Proof. apply getScrollCoord_frame. Qed.

Lemma getScrollCoord_end (start dest st now d : Q) :
  0 < d -> st + d <= now ->
  getScrollCoord (Fin start) (Fin dest) (Fin st) (Fin now) (Fin d)
  = Fin (inject_Z (Qceiling dest)).
Proof.
  intros Hd Hend.
  assert (Hnow : st <= now).
  { apply Qle_trans with (st + d); [|exact Hend]. lra. }
  destruct (getScrollCoord_frame start dest st now d Hd Hnow) as [v [E [_ Hv]]].
  rewrite E. do 2 f_equal. apply Qceiling_comp. apply Hv. exact Hend.
Qed.

Lemma leb_Fin_sub_false (d g st : Q) : g - st < d -> leb (Fin d) (sub (Fin g) (Fin st)) = false.
Proof.
  intro H. cbn [sub add neg]. rewrite leb_Fin.
  destruct (Qle_bool d (g + - st)) eqn:E; [|reflexivity].
  apply Qle_bool_iff in E. exfalso. unfold Qminus in H. lra.
Qed.

Lemma leb_Fin_sub_true (d g st : Q) : st + d <= g -> leb (Fin d) (sub (Fin g) (Fin st)) = true.
Proof. intro H. cbn [sub add neg]. rewrite leb_Fin. apply Qle_bool_iff. lra. Qed.

(** The [scroll] loop over frames [pre ++ f :: post]: it scrolls once per
    frame of [pre], in which [duration] has not elapsed yet, and a last
    time at [f]. *)
Lemma scroll_stops (sx dst st d : Q) (pre post : list Q) (f : Q) :
  Forall (fun g => g - st < d) pre -> st + d <= f ->
  exists ps,
    scroll (Fin sx) (Fin dst) (Fin st) (Fin d) (map Fin (pre ++ f :: post))
    = ps ++ [if strict_eq (Fin sx) (Fin dst) then Fin dst
             else getScrollCoord (Fin sx) (Fin dst) (Fin st) (Fin f) (Fin d)] /\
    length ps = length pre.
Proof.
  intros Hpre Hf. induction Hpre as [|g pre Hg Hpre IH].
  - exists []. split; [|reflexivity].
    cbn [app map scroll]. rewrite (leb_Fin_sub_true d f st Hf). reflexivity.
  - destruct IH as [ps [E L]]. eexists. split.
    + cbn [app map scroll]. rewrite (leb_Fin_sub_false d g st Hg).
      cbn [map app] in E. rewrite E. rewrite app_comm_cons. reflexivity.
    + cbn [length]. rewrite L. reflexivity.
Qed.

(** X5: an animated [scrollEl] (positive duration, no native smooth
    scrolling) scrolls once per animation frame until the first frame at
    which [duration] has elapsed, and that last frame lands exactly on the
    target: [x] when the start offset is already [x], [Math.ceil(x)]
    otherwise; the frames after it scroll no more. *)
Theorem scrollEl_animated_lands (avail native : bool) (sl dst d st f : Q)
    (pre post : list Q) :
  0 < d -> native && avail = false ->
  Forall (fun g => g - st < d) pre -> st + d <= f ->
  exists ps,
    scrollEl avail (Fin sl) (Fin dst) native (Fin d) (Fin st) (map Fin (pre ++ f :: post))
    = map ScrollToX (ps ++ [if Qeq_bool sl dst then Fin dst
                            else Fin (inject_Z (Qceiling dst))]) /\
    length ps = length pre.
Proof.
  intros Hd Hn Hpre Hf. unfold scrollEl.
  rewrite leb_Fin. destruct (Qle_bool d 0) eqn:E.
  { apply Qle_bool_iff in E. exfalso. lra. }
  rewrite Hn.
  destruct (scroll_stops sl dst st d pre post f Hpre Hf) as [ps [Es L]].
  exists ps. split; [|exact L]. rewrite Es. cbn [strict_eq].
  destruct (Qeq_bool sl dst); [reflexivity|].
  rewrite (getScrollCoord_end sl dst st f d Hd Hf). reflexivity.
Qed.

Lemma round_in_range (v : Q) (N : Z) :
  0 <= v -> v <= inject_Z N -> (0 <= Qfloor (v + (1 # 2)) <= N)%Z.
Proof.
  intros H0 H1. split.
  - change 0%Z with (Qfloor (0 + (1 # 2))). apply Qfloor_resp_le. lra.
  - rewrite <- (Qfloor_int_half N). apply Qfloor_resp_le. lra.
Qed.

Lemma div_in_range (Y w : Q) (N : Z) :
  0 < w -> 0 <= Y -> Y <= inject_Z N * w -> 0 <= Y / w /\ Y / w <= inject_Z N.
Proof.
  intros Hw H0 H1. split.
  - apply Qle_shift_div_l; [exact Hw|]. rewrite Qmult_0_l. exact H0.
  - apply Qle_shift_div_r; [exact Hw | exact H1].
Qed.

Lemma last_offset_eq (n : Z) (w : Q) :
  inject_Z n * w + - w == inject_Z (n - 1) * w.
Proof. rewrite inject_Z_sub. ring. Qed.

(** [normalizeSelectedTab] of any finite index is a tab index, for any
    positive width (on the grid or not). *)
Lemma normalizeSelectedTab_range (c : Container) (w q : Q) (n : Z) :
  0 < w -> (1 <= n)%Z -> width c = Fin w -> scrollWidth c = Fin (inject_Z n * w) ->
  exists z, normalizeSelectedTab c (Fin q) = Fin (inject_Z z) /\ (0 <= z <= n - 1)%Z.
Proof.
  intros Hw Hn Ew Es. unfold normalizeSelectedTab, indexToPosition. rewrite Ew.
  cbn [mul round div]. change (Qeq_bool 10000 0) with false. cbv iota.
  rewrite Es. cbn [sub add neg].
  destruct (clamp_bounds (inject_Z n * w + - w)
              (Fin (inject_Z (Qfloor (q * w * 10000 + (1 # 2))) / 10000))
              (last_offset_nonneg n w Hn (Qlt_le_weak _ _ Hw)) eq_refl)
    as [Y [EY HY]].
  rewrite EY. cbn [div]. rewrite (Qeq_bool_false_of_pos w Hw). cbn [round].
  eexists. split; [reflexivity|].
  rewrite last_offset_eq in HY.
  destruct (div_in_range Y w (n - 1) Hw (proj1 HY) (proj2 HY)).
  apply round_in_range; assumption.
Qed.

Lemma calcSelectedTab_fin (c : Container) (w : Q) (n : Z) :
  0 < w -> (1 <= n)%Z -> width c = Fin w -> scrollWidth c = Fin (inject_Z n * w) ->
  isNaN (scrollLeft c) = false ->
  exists s, calcSelectedTab c = Fin s.
Proof.
  intros Hw Hn Ew Es Hsl. unfold calcSelectedTab, positionToIndex.
  rewrite Ew, Es. cbn [sub add neg].
  destruct (clamp_bounds _ _ (last_offset_nonneg n w Hn (Qlt_le_weak _ _ Hw)) Hsl)
    as [Y [EY _]].
  rewrite EY. cbn [div]. rewrite (Qeq_bool_false_of_pos w Hw). eexists. reflexivity.
Qed.

(** The shape of a completed [onTouchEnd] of a drag. *)
Lemma onTouchEnd_commit_shape (c : Container) (coords : STCoord) (now : num)
    (c' : Container) (effs : list effect) :
  swipeEnabled c = true -> isDragging c = true ->
  onTouchEnd c coords now = Some (c', effs) ->
  exists v e2,
    (v = calcSelectedTab c \/ v = add (calcSelectedTab c) (Fin (-1)) \/
     v = add (calcSelectedTab c) (Fin 1)) /\
    _activeTabIndex c' = Some (normalizeSelectedTab c v) /\
    effs = ActiveTabIndexChange (normalizeSelectedTab c v) :: e2 /\
    forallb (fun e => negb (is_active_change e)) e2 = true /\
    isDragging c' = false /\ initialCoords c' = None /\ lastPosX c' = None.
Proof.
  intros Hs Hd H. unfold onTouchEnd in H. rewrite Hs, Hd in H. cbn [negb orb] in H.
  destruct (config c) as [cfg|] eqn:Ec; [|discriminate].
  destruct (initialCoords c) as [c0|]; [|discriminate].
  cbv zeta in H.
  match type of H with
  | context [normalizeSelectedTab c ?v0] => set (v := v0) in H
  end.
  unfold updateActiveTabIndex in H. cbn [config set_activeTabIndex] in H.
  rewrite Ec in H. injection H as <- <-.
  exists v, (moveContainerByIndex
               (if lazyLoad cfg then lazyLoadTabs (set_activeTabIndex c (Some (normalizeSelectedTab c v)))
                else set_activeTabIndex c (Some (normalizeSelectedTab c v)))
               (normalizeSelectedTab c v) true).
  split; [|split; [|split; [|split]]].
  - subst v. destruct (_ && _); [|left; reflexivity].
    right. destruct (ltb _ _); [left | right]; reflexivity.
  - unfold reset_gesture. cbn [fst _activeTabIndex]. destruct (lazyLoad cfg);
      [rewrite lazyLoadTabs_activeTabIndex|]; reflexivity.
  - reflexivity.
  - apply moveContainerByIndex_no_active_change.
  - repeat split; reflexivity.
Qed.

(** X6: whatever the offset at release (fractional, negative, past the
    end, infinite) and for every positive tab width, a completed drag
    commits an integer tab index in [[0, tabCount - 1]]: [onTouchEnd]
    stores it in [_activeTabIndex] and emits it first, in one
    [activeTabIndexChange]; none of the effects after it is another one. *)
Theorem onTouchEnd_commits_tab_index (c : Container) (coords : STCoord) (now : num)
    (w : Q) (n : Z) (c' : Container) (effs : list effect) :
  0 < w -> (1 <= n)%Z -> width c = Fin w -> scrollWidth c = Fin (inject_Z n * w) ->
  isNaN (scrollLeft c) = false ->
  swipeEnabled c = true -> isDragging c = true ->
  onTouchEnd c coords now = Some (c', effs) ->
  exists z e2, (0 <= z <= n - 1)%Z /\
    _activeTabIndex c' = Some (Fin (inject_Z z)) /\
    effs = ActiveTabIndexChange (Fin (inject_Z z)) :: e2 /\
    forallb (fun e => negb (is_active_change e)) e2 = true.
Proof.
  intros Hw Hn Ew Es Hsl Hs Hd H.
  destruct (onTouchEnd_commit_shape c coords now c' effs Hs Hd H)
    as [v [e2 [Hv [Ea [Ee [Hno _]]]]]].
  destruct (calcSelectedTab_fin c w n Hw Hn Ew Es Hsl) as [s Ecs].
  assert (Hvf : exists q, v = Fin q).
  { rewrite Ecs in Hv. destruct Hv as [-> | [-> | ->]]; eexists; reflexivity. }
  destruct Hvf as [q ->].
  destruct (normalizeSelectedTab_range c w q n Hw Hn Ew Es) as [z [Ez Hz]].
  rewrite Ez in Ea, Ee. exists z, e2. exact (conj Hz (conj Ea (conj Ee Hno))).
Qed.

Lemma touchMoveScroll_range (c1 : Container) (a b w : Q) (n : Z) (coords : STCoord)
    (c' : Container) (effs : list effect) :
  0 < w -> (1 <= n)%Z -> width c1 = Fin w -> scrollWidth c1 = Fin (inject_Z n * w) ->
  isNaN (scrollLeft c1) = false -> x coords = Fin b ->
  touchMoveScroll c1 (Fin a) coords = (c', effs) ->
  _activeTabIndex c' = _activeTabIndex c1 /\
  Forall (fun e => match e with
                   | SelectedTabIndexChange v =>
                       exists q, v = Fin q /\ 0 <= q <= inject_Z (n - 1)
                   | ScrollTo s an =>
                       an = false /\ exists p, s = Fin p /\ 0 <= p <= inject_Z (n - 1) * w
                   | _ => False
                   end) effs.
Proof.
  intros Hw Hn Ew Es Hsl Hb H. unfold touchMoveScroll in H. rewrite Hb in H.
  cbn [sub add neg strict_eq] in H.
  destruct (Qeq_bool (a + - b) 0).
  { injection H as <- <-. split; [reflexivity | constructor]. }
  rewrite Ew, Es in H. cbn [sub add neg] in H.
  assert (Hx : isNaN (add (scrollLeft c1) (Fin (a + - b))) = false)
    by (destruct (scrollLeft c1); try discriminate; reflexivity).
  destruct (clamp_bounds _ _ (last_offset_nonneg n w Hn (Qlt_le_weak _ _ Hw)) Hx)
    as [Y [EY HY]].
  rewrite EY in H. rewrite last_offset_eq in HY.
  destruct (strict_eq (floor (Fin Y)) (floor (scrollLeft c1))).
  { injection H as <- <-. split; [reflexivity | constructor]. }
  unfold positionToIndex in H. rewrite Ew in H. cbn [div mul round] in H.
  rewrite (Qeq_bool_false_of_pos w Hw) in H. cbn [mul round div] in H.
  change (Qeq_bool 100 0) with false in H. cbv iota in H.
  destruct (div_in_range Y w (n - 1) Hw (proj1 HY) (proj2 HY)) as [D0 D1].
  set (f := Qfloor (Y / w * 100 + (1 # 2))) in H.
  assert (Hf : (0 <= f <= 100 * (n - 1))%Z).
  { apply round_in_range.
    - apply Qmult_le_0_compat; [exact D0 | discriminate].
    - rewrite inject_Z_mult. change (inject_Z 100) with 100.
      rewrite Qmult_comm. apply Qmult_le_l; [reflexivity | exact D1]. }
  assert (Hq : 0 <= inject_Z f / 100 <= inject_Z (n - 1)).
  { split.
    - apply Qle_shift_div_l; [reflexivity|]. rewrite Qmult_0_l.
      change 0 with (inject_Z 0). rewrite <- Zle_Qle. lia.
    - apply Qle_shift_div_r; [reflexivity|].
      change 100 with (inject_Z 100). rewrite <- inject_Z_mult, <- Zle_Qle. lia. }
  assert (Hsc : match ScrollTo (Fin Y) false with
                | SelectedTabIndexChange v => exists q, v = Fin q /\ 0 <= q <= inject_Z (n - 1)
                | ScrollTo s an => an = false /\ exists p, s = Fin p /\ 0 <= p <= inject_Z (n - 1) * w
                | _ => False
                end) by (split; [reflexivity | exists Y; split; [reflexivity | exact HY]]).
  unfold updateSelectedTabIndex in H.
  destruct (match _selectedTabIndex c1 with Some s => _ | None => false end).
  - injection H as <- <-. split; [reflexivity|]. constructor; [exact Hsc | constructor].
  - injection H as <- <-. split; [reflexivity|].
    constructor; [exists (inject_Z f / 100); split; [reflexivity | exact Hq]|].
    constructor; [exact Hsc | constructor].
Qed.

(** X7: while a finger drags the container ([onTouchMove]), every
    [selectedTabIndexChange] value is a number in [[0, tabCount - 1]]
    and every scroll is an immediate one to an offset in
    [[0, (tabCount - 1) * width]]; the drag never changes
    [_activeTabIndex] and never emits [activeTabIndexChange]. *)
Theorem onTouchMove_preview_in_range (c : Container) (coords : STCoord) (g : bool)
    (w b : Q) (n : Z) (c' : Container) (effs : list effect) :
  0 < w -> (1 <= n)%Z -> width c = Fin w -> scrollWidth c = Fin (inject_Z n * w) ->
  isNaN (scrollLeft c) = false -> x coords = Fin b ->
  (forall lx, lastPosX c = Some lx -> is_finite lx = true) ->
  onTouchMove c coords g = Some (c', effs) ->
  _activeTabIndex c' = _activeTabIndex c /\
  Forall (fun e => match e with
                   | SelectedTabIndexChange v =>
                       exists q, v = Fin q /\ 0 <= q <= inject_Z (n - 1)
                   | ScrollTo s an =>
                       an = false /\ exists p, s = Fin p /\ 0 <= p <= inject_Z (n - 1) * w
                   | _ => False
                   end) effs.
Proof.
  intros Hw Hn Ew Es Hsl Hb Hlx H. unfold onTouchMove in H.
  destruct (swipeEnabled c).
  2:{ injection H as <- <-. split; [reflexivity | constructor]. }
  destruct (initialCoords c) as [ic|];
    [|injection H as <- <-; split; [reflexivity | constructor]].
  destruct (lastPosX c) as [lx|] eqn:El;
    [|injection H as <- <-; split; [reflexivity | constructor]].
  destruct lx as [a| | |]; try (specialize (Hlx _ eq_refl); discriminate).
  destruct (config c); [|discriminate]. cbn [negb] in H.
  destruct (isDragging c); [|destruct g].
  - injection H as H.
    exact (touchMoveScroll_range c a b w n coords c' effs Hw Hn Ew Es Hsl Hb H).
  - injection H as H.
    exact (touchMoveScroll_range (set_gesture c (Some ic) (Some (Fin a)) true)
             a b w n coords c' effs Hw Hn Ew Es Hsl Hb H).
  - destruct (ltb _ _); injection H as <- <-; split; try reflexivity; constructor.
Qed.

(** X8: [gesture_consistent] holds initially ([isDragging = false]) and
    is preserved by [onTouchStart], [onTouchMove] and [onTouchEnd]; on a
    consistent container with a configuration, [onTouchEnd] never throws
    (its [this.initialCoords!.x] is always defined). *)
Theorem touch_handlers_keep_gesture_consistent :
  (forall c ae av coords rw l r now c',
     gesture_consistent c = true ->
     onTouchStart c ae av coords rw l r now = Some c' -> gesture_consistent c' = true) /\
  (forall c coords g c' effs,
     gesture_consistent c = true ->
     onTouchMove c coords g = Some (c', effs) -> gesture_consistent c' = true) /\
  (forall c coords now c' effs,
     gesture_consistent c = true ->
     onTouchEnd c coords now = Some (c', effs) -> gesture_consistent c' = true) /\
  (forall c coords now cfg,
     gesture_consistent c = true -> config c = Some cfg ->
     exists c' effs, onTouchEnd c coords now = Some (c', effs)).
Proof.
  split; [|split; [|split]].
  - intros c ae av coords rw l r now c' Hc H. unfold onTouchStart in H.
    destruct (swipeEnabled c); [|injection H as <-; exact Hc].
    destruct (config c) as [cfg|]; [|discriminate]. cbn [negb] in H.
    destruct (ae && av); [injection H as <-; exact Hc|].
    destruct (_ || _); [injection H as <-; exact Hc|].
    injection H as <-. unfold gesture_consistent. cbn. apply orb_true_r.
  - intros c coords g c' effs Hc H. unfold onTouchMove in H.
    destruct (swipeEnabled c); [|injection H as <- <-; exact Hc].
    destruct (initialCoords c) as [ic|] eqn:Ei; [|injection H as <- <-; exact Hc].
    destruct (lastPosX c) as [lx|] eqn:El; [|injection H as <- <-; exact Hc].
    destruct (config c); [|discriminate]. cbn [negb] in H.
    assert (Hs : forall c1, initialCoords c1 = Some ic -> lastPosX c1 = Some lx ->
              gesture_consistent (fst (touchMoveScroll c1 lx coords)) = true).
    { intros c1 Ei1 El1. unfold touchMoveScroll.
      destruct (strict_eq _ _);
        [cbn [fst]; unfold gesture_consistent; rewrite Ei1, El1; apply orb_true_r|].
      destruct (strict_eq _ _);
        [cbn [fst]; unfold gesture_consistent; rewrite Ei1, El1; apply orb_true_r|].
      unfold updateSelectedTabIndex.
      destruct (match _selectedTabIndex c1 with Some _ => _ | None => false end);
        unfold gesture_consistent; cbn; rewrite Ei1; apply orb_true_r. }
    destruct (isDragging c) eqn:Ed; [|destruct g].
    + injection H as H. replace c' with (fst (touchMoveScroll c lx coords))
        by (rewrite H; reflexivity). apply (Hs c Ei El).
    + injection H as H.
      match type of H with touchMoveScroll ?c1 _ _ = _ =>
        replace c' with (fst (touchMoveScroll c1 lx coords)) by (rewrite H; reflexivity)
      end.
      apply Hs; reflexivity.
    + destruct (ltb _ _); injection H as <- <-; unfold gesture_consistent;
        cbn; rewrite ?Ed, ?Ei, ?El; reflexivity.
  - intros c coords now c' effs Hc H. unfold onTouchEnd in H.
    destruct (negb (swipeEnabled c) || negb (isDragging c));
      [injection H as <- <-; exact Hc|].
    destruct (config c) as [cfg|]; [|discriminate].
    destruct (initialCoords c); [|discriminate].
    cbv zeta in H. unfold updateActiveTabIndex in H. cbn [config set_activeTabIndex] in H.
    destruct (config c); [|discriminate].
    injection H as <- <-. reflexivity.
  - intros c coords now cfg Hc Ec. unfold onTouchEnd.
    destruct (negb (swipeEnabled c) || negb (isDragging c)) eqn:Eg;
      [do 2 eexists; reflexivity|].
    rewrite Ec.
    assert (Hd : isDragging c = true)
      by (destruct (isDragging c); [reflexivity | rewrite orb_true_r in Eg; discriminate]).
    unfold gesture_consistent in Hc. rewrite Hd in Hc. cbn [negb orb] in Hc.
    destruct (initialCoords c); [|discriminate].
    cbv zeta. unfold updateActiveTabIndex. cbn [config set_activeTabIndex]. rewrite Ec.
    do 2 eexists. reflexivity.
Qed.

(** X9: if [swipeEnabled] is switched off while a drag is in progress,
    no touch handler clears [isDragging] any more (each returns at its
    first line), and the container's capture-phase [onClick] stops every
    click inside it until swiping is enabled again. *)
Theorem swipe_disabled_mid_drag_swallows_clicks (c : Container) :
  isDragging c = true ->
  let c1 := set_swipeEnabled c false in
  (forall coords now, onTouchEnd c1 coords now = Some (c1, [])) /\
  (forall coords g, onTouchMove c1 coords g = Some (c1, [])) /\
  (forall ae av coords rw l r now, onTouchStart c1 ae av coords rw l r now = Some c1) /\
  isDragging c1 = true /\ onClick c1 = true.
Proof.
  intros Hd c1. repeat split; intros; try reflexivity; exact Hd.
Qed.

(** X10: a finger that drifts more than 100px vertically before the drag
    is recognised abandons the gesture: nothing is emitted, and no later
    [touchmove] or [touchend] of that touch scrolls, emits or commits. *)
Theorem onTouchMove_vertical_abandon (c : Container) (coords : STCoord)
    (ic : STCoord) (lx : num) (cfg : SuperTabsConfig) :
  swipeEnabled c = true -> isDragging c = false ->
  initialCoords c = Some ic -> lastPosX c = Some lx -> config c = Some cfg ->
  ltb (Fin 100) (abs (sub (y coords) (y ic))) = true ->
  exists c1, onTouchMove c coords false = Some (c1, []) /\
    (forall coords' g, onTouchMove c1 coords' g = Some (c1, [])) /\
    (forall coords' now, onTouchEnd c1 coords' now = Some (c1, [])).
Proof.
  intros Hs Hd Ei El Ec Hy. unfold onTouchMove at 1.
  rewrite Hs, Ei, El, Ec, Hd. cbn [negb]. rewrite Hy.
  eexists. split; [reflexivity|]. split.
  - intros coords' g. unfold onTouchMove. cbn. rewrite Hs. reflexivity.
  - intros coords' now. unfold onTouchEnd. cbn. rewrite orb_true_r. reflexivity.
Qed.

(* ------------------------------------------------------------------ *)
(** ** The root: toolbar clicks and committed swipes *)

Lemma strict_eq_refl (i : num) : isNaN i = false -> strict_eq i i = true.
Proof.
  destruct i as [q| | |]; try discriminate; intros _; try reflexivity.
  apply Qeq_bool_refl.
Qed.

(** [setActiveTab] of an integer index that has a button keeps it. *)
Lemma setActiveTab_int (t : Toolbar) (z : Z) (align animate : bool) :
  (0 <= z < Z.of_nat (buttonCount t))%Z ->
  setActiveTab t (Fin (inject_Z z)) align animate =
  {| tb_activeTabIndex := Fin (inject_Z z); buttonCount := buttonCount t |}.
Proof.
  intro Hz. unfold setActiveTab. cbn [round sub add neg].
  rewrite Qfloor_int_half, min_Fin.
  set (N := Z.of_nat (buttonCount t)).
  assert (HA : inject_Z N + - (1) == inject_Z (N - 1)) by (rewrite inject_Z_sub; ring).
  rewrite (Qle_bool_compat _ _ _ _ (Qeq_refl _) HA), Qle_bool_int.
  destruct (Z.leb_spec z (N - 1)) as [_|H]; [|lia].
  rewrite max_Fin. change 0 with (inject_Z 0). rewrite Qle_bool_int.
  destruct (Z.leb_spec z 0) as [H|_]; [|reflexivity].
  replace z with 0%Z by lia. reflexivity.
Qed.

Lemma emitTabChangeEvent_nonneg (r : SuperTabs) (i : num) :
  ltb i (Fin 0) = false ->
  emitTabChangeEvent r i None = [mkDetail (negb (strict_eq i (activeTabIndex r))) i].
Proof. intro H. unfold emitTabChangeEvent. rewrite H. reflexivity. Qed.

(** After [setActiveTabIndex], [_activeTabIndex] is [===] the index. *)
Lemma setActiveTabIndex_active (c : Container) (cfg : SuperTabsConfig) (i : num)
    (mv an : bool) (c' : Container) (effs : list effect) :
  config c = Some cfg -> isNaN i = false ->
  setActiveTabIndex c i mv an = Some (c', effs) ->
  exists a, _activeTabIndex c' = Some a /\ strict_eq a i = true.
Proof.
  intros Hc Hi H. unfold setActiveTabIndex, updateActiveTabIndex in H.
  cbn [config set_activeTabIndex] in H. rewrite Hc in H.
  destruct (_activeTabIndex c) as [a|] eqn:Ea.
  - destruct (strict_eq a i) eqn:Eai.
    + destruct (autoScrollTop c); cbn [andb negb] in H.
      * injection H as <- _. exists i. split; [|apply strict_eq_refl; exact Hi].
        destruct (lazyLoad cfg); [rewrite lazyLoadTabs_activeTabIndex|]; reflexivity.
      * injection H as <- _. exists a. split; [exact Ea | exact Eai].
    + cbn [andb] in H. injection H as <- _. exists i.
      split; [|apply strict_eq_refl; exact Hi].
      destruct (lazyLoad cfg); [rewrite lazyLoadTabs_activeTabIndex|]; reflexivity.
  - cbn [andb] in H. injection H as <- _. exists i.
    split; [|apply strict_eq_refl; exact Hi].
    destruct (lazyLoad cfg); [rewrite lazyLoadTabs_activeTabIndex|]; reflexivity.
Qed.

(** X11: a click on a toolbar button with a non-negative index emits
    exactly one [tabChange] (its [changed] flag compares with the
    previous [activeTabIndex]), stores the index in the root and moves
    the container's [_activeTabIndex] to it; the container emits no
    [activeTabIndexChange], so the root never calls back into the
    toolbar. *)
Theorem onToolbarButtonClick_syncs (r : SuperTabs) (c : Container)
    (cfg : SuperTabsConfig) (i : num) :
  container r = Some c -> config c = Some cfg ->
  isNaN i = false -> ltb i (Fin 0) = false ->
  exists c' a,
    onToolbarButtonClick r i =
      ({| activeTabIndex := i; container := Some c'; toolbar := toolbar r |},
       [mkDetail (negb (strict_eq i (activeTabIndex r))) i]) /\
    _activeTabIndex c' = Some a /\ strict_eq a i = true.
Proof.
  intros Hr Hc Hi Hneg. unfold onToolbarButtonClick.
  rewrite (emitTabChangeEvent_nonneg r i Hneg). cbn [container set_root_activeTabIndex].
  rewrite Hr.
  destruct (setActiveTabIndex_no_active_change c cfg i true true Hc)
    as [c' [effs [E Hno]]].
  rewrite E, dispatch_no_active_change by exact Hno.
  destruct (setActiveTabIndex_active c cfg i true true c' effs Hc Hi E) as [a [Ea Eai]].
  exists c', a. split; [|exact (conj Ea Eai)].
  rewrite app_nil_r. reflexivity.
Qed.

(** X12: a completed drag, its effects delivered to the root: the root's
    [activeTabIndex] becomes the committed tab [z], one [tabChange]
    event reports it, and the toolbar is moved to it (to [z] itself
    when it has at least as many buttons as there are tabs). *)
Theorem onTouchEnd_dispatch_root (r : SuperTabs) (c : Container) (coords : STCoord)
    (now : num) (w : Q) (n : Z) (c' : Container) (effs : list effect) :
  0 < w -> (1 <= n)%Z -> width c = Fin w -> scrollWidth c = Fin (inject_Z n * w) ->
  isNaN (scrollLeft c) = false ->
  swipeEnabled c = true -> isDragging c = true ->
  onTouchEnd c coords now = Some (c', effs) ->
  exists z, (0 <= z <= n - 1)%Z /\
    dispatch (set_container r c') effs =
      ({| activeTabIndex := Fin (inject_Z z); container := Some c';
          toolbar := option_map (fun t => setActiveTab t (Fin (inject_Z z)) true true)
                       (toolbar r) |},
       [mkDetail (negb (strict_eq (Fin (inject_Z z)) (activeTabIndex r))) (Fin (inject_Z z))]) /\
    (forall t, toolbar r = Some t -> (n <= Z.of_nat (buttonCount t))%Z ->
       option_map (fun t => setActiveTab t (Fin (inject_Z z)) true true) (toolbar r) =
       Some {| tb_activeTabIndex := Fin (inject_Z z); buttonCount := buttonCount t |}).
Proof.
  intros Hw Hn Ew Es Hsl Hs Hd H.
  destruct (onTouchEnd_commit_shape c coords now c' effs Hs Hd H)
    as [v [e2 [Hv [_ [Ee [Hno _]]]]]].
  destruct (calcSelectedTab_fin c w n Hw Hn Ew Es Hsl) as [s Ecs].
  assert (Hvf : exists q, v = Fin q).
  { rewrite Ecs in Hv. destruct Hv as [-> | [-> | ->]]; eexists; reflexivity. }
  destruct Hvf as [q ->].
  destruct (normalizeSelectedTab_range c w q n Hw Hn Ew Es) as [z [Ez Hz]].
  rewrite Ez in Ee. subst effs. exists z. split; [exact Hz|]. split.
  - cbn [dispatch]. unfold onContainerActiveTabChange.
    assert (Hnn : ltb (Fin (inject_Z z)) (Fin 0) = false).
    { rewrite ltb_Fin. change 0 with (inject_Z 0). rewrite Qle_bool_int.
      destruct (Z.leb_spec 0 z); [reflexivity | lia]. }
    rewrite (emitTabChangeEvent_nonneg _ _ Hnn).
    rewrite dispatch_no_active_change by exact Hno.
    destruct r as [ai co [t|]]; reflexivity.
  - intros t Et Hb. rewrite Et. cbn [option_map]. rewrite setActiveTab_int by lia.
    reflexivity.
Qed.

(* ------------------------------------------------------------------ *)
(** ** The toolbar: taps and clicks *)

Lemma toolbar_tap_start (s : TB.ToolbarState) (coords : STCoord) (t0 : num) :
  TB.scrollable s = true ->
  ltb (x coords) (TB.leftThreshold s) = false ->
  ltb (sub (TB.tb_width s) (TB.rightThreshold s)) (x coords) = false ->
  TB.onTouchStart s coords t0 =
  TB.set_touch s t0 (TB.lastClickTs s) (Some coords) (Some (x coords)) (TB.tb_isDragging s).
Proof.
  intros Hsc Hl Hr. unfold TB.onTouchStart. rewrite Hsc, Hl, Hr. reflexivity.
Qed.

(** The [touchend] of a short tap on button [i] emits [i]. *)
Lemma toolbar_tap_end (s : TB.ToolbarState) (cfg : TB.ToolbarConfig)
    (coords coords' : STCoord) (i : nat) (t0 t1 : num) :
  TB.tb_config s = Some cfg ->
  ltb (TB.lastClickTs s) t0 = true ->
  leb (sub t1 t0) (Fin 150) = true ->
  ltb (abs (sub (x coords') (x coords))) (TB.dragThreshold cfg) = true ->
  let s1 := TB.set_touch s t0 (TB.lastClickTs s) (Some coords) (Some (x coords))
              (TB.tb_isDragging s) in
  TB.onTouchEnd s1 coords' (TB.TgtButton i) t1 =
  (TB.set_touch (fst (TB.onButtonClick s1 i t1)) t0 t1 None None (Some false), [i]).
Proof.
  intros Hc Hlc Ht Hdt s1. unfold TB.onTouchEnd. subst s1.
  cbn [TB.set_touch TB.lastClickTs TB.touchStartTs TB.tb_initialCoords TB.tb_config].
  rewrite Hlc, Ht, Hc. cbn [andb TB.dragThreshold]. rewrite Hdt. reflexivity.
Qed.

(** X13: on a scrollable toolbar with a config, a quick tap on a button
    ([touchstart] outside the side-menu edge zones, after the last
    button click, then [touchend] within 150 ms and closer than
    [dragThreshold]) emits [buttonClick] once, on [touchend], and moves
    the toolbar to the button; the [click] the browser then fires, on
    any target, is swallowed as long as it comes within 150 ms of the
    [touchstart]. *)
Theorem toolbar_quick_tap_single_click (s : TB.ToolbarState) (cfg : TB.ToolbarConfig)
    (coords coords' : STCoord) (i : nat) (t0 t1 t2 : num) :
  TB.scrollable s = true ->
  ltb (x coords) (TB.leftThreshold s) = false ->
  ltb (sub (TB.tb_width s) (TB.rightThreshold s)) (x coords) = false ->
  TB.tb_config s = Some cfg ->
  ltb (TB.lastClickTs s) t0 = true ->
  leb (sub t1 t0) (Fin 150) = true ->
  ltb (abs (sub (x coords') (x coords))) (TB.dragThreshold cfg) = true ->
  leb (sub t2 t0) (Fin 150) = true ->
  let (s2, e1) := TB.onTouchEnd (TB.onTouchStart s coords t0) coords' (TB.TgtButton i) t1 in
  e1 = [i] /\ (forall tgt, TB.onClick s2 tgt t2 = (s2, [])) /\
  TB.tb s2 = setActiveTab (TB.tb s) (Fin (inject_Z (Z.of_nat i))) true true /\
  TB.tb_initialCoords s2 = None /\ TB.tb_isDragging s2 = Some false.
Proof.
  intros Hsc Hl Hr Hc Hlc Ht1 Hdt Ht2.
  rewrite (toolbar_tap_start s coords t0 Hsc Hl Hr).
  rewrite (toolbar_tap_end s cfg coords coords' i t0 t1 Hc Hlc Ht1 Hdt).
  split; [reflexivity|]. split; [|repeat split].
  intros [tgt|]; [|reflexivity]. unfold TB.onClick.
  cbn [TB.set_touch TB.touchStartTs]. rewrite Ht2. reflexivity.
Qed.

(** X14: the same tap (scrollable toolbar with a config, [touchstart]
    outside the side-menu edge zones and after the last button click,
    [touchend] within 150 ms and closer than [dragThreshold]), when the
    browser's [click] on the button does not come within 150 ms of the
    [touchstart] (later, or at a [NaN] time difference), emits
    [buttonClick] a second time for the same button. *)
Theorem toolbar_late_click_emits_twice (s : TB.ToolbarState) (cfg : TB.ToolbarConfig)
    (coords coords' : STCoord) (i : nat) (t0 t1 t2 : num) :
  TB.scrollable s = true ->
  ltb (x coords) (TB.leftThreshold s) = false ->
  ltb (sub (TB.tb_width s) (TB.rightThreshold s)) (x coords) = false ->
  TB.tb_config s = Some cfg ->
  ltb (TB.lastClickTs s) t0 = true ->
  leb (sub t1 t0) (Fin 150) = true ->
  ltb (abs (sub (x coords') (x coords))) (TB.dragThreshold cfg) = true ->
  leb (sub t2 t0) (Fin 150) = false ->
  let (s2, e1) := TB.onTouchEnd (TB.onTouchStart s coords t0) coords' (TB.TgtButton i) t1 in
  e1 ++ snd (TB.onClick s2 (Some (TB.TgtButton i)) t2) = [i; i].
Proof.
  intros Hsc Hl Hr Hc Hlc Ht1 Hdt Ht2.
  rewrite (toolbar_tap_start s coords t0 Hsc Hl Hr).
  rewrite (toolbar_tap_end s cfg coords coords' i t0 t1 Hc Hlc Ht1 Hdt).
  unfold TB.onClick. cbn [TB.set_touch TB.touchStartTs]. rewrite Ht2. reflexivity.
Qed.


(** X16: with a side menu configured, [updateThresholds] makes the
    toolbar ignore a [touchstart] in the side menu's edge zone: the
    state is left unchanged. *)
Theorem toolbar_sideMenu_zone_ignored (s : TB.ToolbarState) (cfg : TB.ToolbarConfig)
    (coords : STCoord) (now : num) :
  TB.tb_config s = Some cfg ->
  match TB.sideMenu cfg with
  | Some TB.SideLeft => ltb (x coords) (TB.sideMenuThreshold cfg) = true
  | Some TB.SideRight =>
      ltb (sub (TB.tb_width s) (TB.sideMenuThreshold cfg)) (x coords) = true
  | Some TB.SideBoth =>
      ltb (x coords) (TB.sideMenuThreshold cfg) = true \/
      ltb (sub (TB.tb_width s) (TB.sideMenuThreshold cfg)) (x coords) = true
  | None => False
  end ->
  TB.onTouchStart (TB.updateThresholds s) coords now = TB.updateThresholds s.
Proof.
  intros Hc Hz. unfold TB.updateThresholds. rewrite Hc.
  unfold TB.onTouchStart. cbn [TB.scrollable TB.leftThreshold TB.rightThreshold TB.tb_width].
  destruct (TB.sideMenu cfg) as [[| |]|]; [| | |contradiction].
  - rewrite Hz. destruct (negb (TB.scrollable s)); reflexivity.
  - rewrite Hz, orb_true_r. destruct (negb (TB.scrollable s)); reflexivity.
  - destruct Hz as [Hz|Hz]; rewrite Hz; [|rewrite orb_true_r];
      destruct (negb (TB.scrollable s)); reflexivity.
Qed.

Lemma Qceiling_frac (q : Q) :
  ~ q == inject_Z (Qfloor q) -> Qceiling q = (Qfloor q + 1)%Z.
Proof.
  intro Hq. pose proof (Qfloor_le q). pose proof (Qlt_floor q).
  pose proof (Qle_ceiling q). pose proof (Qceiling_lt q).
  assert (Hlt : inject_Z (Qfloor q) < q).
  { destruct (Qlt_le_dec (inject_Z (Qfloor q)) q) as [h|h]; [exact h|].
    exfalso. apply Hq. apply Qle_antisym; assumption. }
  assert (A : (Qfloor q < Qceiling q)%Z) by (rewrite Zlt_Qlt; lra).
  assert (B : (Qceiling q - 1 < Qfloor q + 1)%Z) by (rewrite Zlt_Qlt; lra).
  lia.
Qed.

Lemma buttonAt_int (buttons : list TB.ButtonGeometry) (z : Z) :
  (0 <= z)%Z -> TB.buttonAt buttons (Fin (inject_Z z)) = nth_error buttons (Z.to_nat z).
Proof.
  intro Hz. unfold TB.buttonAt. rewrite Qfloor_Z, Qeq_bool_refl.
  destruct (Z.leb_spec 0 z); [reflexivity | lia].
Qed.

(** X17: at an integer index [z] the indicator is placed exactly on
    button [z] (its [offsetLeft] and [clientWidth]), and the toolbar is
    marked as not dragging. *)
Theorem alignIndicator_integer (buttons : list TB.ButtonGeometry) (z : Z)
    (b : TB.ButtonGeometry) :
  (0 <= z)%Z -> nth_error buttons (Z.to_nat z) = Some b ->
  TB.alignIndicator true true buttons (Fin (inject_Z z)) =
  (Some false, Some (TB.mkIndicatorFrame (TB.offsetLeft b) (TB.clientWidth b) false)).
Proof.
  intros Hz Hb. unfold TB.alignIndicator. cbn [negb orb].
  cbn [mod1 floor ceil]. rewrite Qfloor_Z, Qceiling_Z.
  assert (E0 : Qle_bool 0 (inject_Z z) = true).
  { apply Qle_bool_iff. change 0 with (inject_Z 0). rewrite <- Zle_Qle. exact Hz. }
  rewrite E0.
  assert (E : ltb (Fin 0) (Fin (inject_Z z - inject_Z z)) = false).
  { rewrite ltb_Fin. assert (Qle_bool (inject_Z z - inject_Z z) 0 = true)
      by (apply Qle_bool_iff; ring_simplify; apply Qle_refl).
    rewrite H. reflexivity. }
  rewrite E, buttonAt_int, Hb by exact Hz. reflexivity.
Qed.

(** X18: at a fractional index [q >= 0] between buttons [k] and [k + 1]
    ([k] the floor of [q]) the indicator's position and width are
    interpolated linearly between the two buttons' with the fraction
    [q - k], strictly between 0 and 1, and the frame is a dragging one. *)
Theorem alignIndicator_fraction (buttons : list TB.ButtonGeometry) (q : Q)
    (a b : TB.ButtonGeometry) (pa wa pb wb : Q) :
  0 <= q -> ~ q == inject_Z (Qfloor q) ->
  nth_error buttons (Z.to_nat (Qfloor q)) = Some a ->
  nth_error buttons (S (Z.to_nat (Qfloor q))) = Some b ->
  TB.offsetLeft a = Fin pa -> TB.clientWidth a = Fin wa ->
  TB.offsetLeft b = Fin pb -> TB.clientWidth b = Fin wb ->
  exists p wd,
    TB.alignIndicator true true buttons (Fin q) =
      (Some true, Some (TB.mkIndicatorFrame (Fin p) (Fin wd) true)) /\
    p == pa + (q - inject_Z (Qfloor q)) * (pb - pa) /\
    wd == wa + (q - inject_Z (Qfloor q)) * (wb - wa) /\
    0 < q - inject_Z (Qfloor q) < 1.
Proof.
  intros Hq Hfr Ha Hb Hpa Hwa Hpb Hwb.
  pose proof (Qfloor_le q) as F1. pose proof (Qlt_floor q) as F2.
  rewrite inject_Z_plus in F2. change (inject_Z 1) with 1 in F2.
  assert (Hlt : inject_Z (Qfloor q) < q).
  { destruct (Qlt_le_dec (inject_Z (Qfloor q)) q) as [h|h]; [exact h|].
    exfalso. apply Hfr. apply Qle_antisym; assumption. }
  assert (Hz : (0 <= Qfloor q)%Z).
  { change 0%Z with (Qfloor 0). apply Qfloor_resp_le. exact Hq. }
  unfold TB.alignIndicator. cbn [negb orb mod1 floor ceil].
  assert (E0 : Qle_bool 0 q = true) by (apply Qle_bool_iff; exact Hq).
  rewrite E0, (Qceiling_frac q Hfr).
  assert (E1 : ltb (Fin 0) (Fin (q - inject_Z (Qfloor q))) = true).
  { rewrite ltb_Fin. destruct (Qle_bool _ 0) eqn:E; [|reflexivity].
    apply Qle_bool_iff in E. lra. }
  rewrite E1, buttonAt_int, Ha by exact Hz.
  assert (E2 : strict_eq (Fin (inject_Z (Qfloor q))) (Fin (inject_Z (Qfloor q + 1))) = false).
  { cbn [strict_eq]. destruct (Qeq_bool _ _) eqn:E; [|reflexivity].
    apply Qeq_bool_eq in E. rewrite inject_Z_plus in E. change (inject_Z 1) with 1 in E.
    lra. }
  rewrite E2. cbn [andb negb].
  rewrite buttonAt_int by lia. rewrite Z2Nat.inj_add by lia.
  change (Z.to_nat 1) with 1%nat. rewrite Nat.add_1_r, Hb, Hpa, Hwa, Hpb, Hwb.
  cbn [add mul sub neg].
  eexists _, _. split; [reflexivity|]. split; [ring|]. split; [ring|]. lra.
Qed.

(** X19: an index with no button at its floor (negative, at or past
    the number of buttons, or not finite) schedules no indicator frame,
    whatever the flags. *)
Theorem alignIndicator_out_of_range (show hasEl : bool) (buttons : list TB.ButtonGeometry)
    (i : num) :
  match i with
  | Fin q => q < 0 \/ inject_Z (Z.of_nat (length buttons)) <= q
  | _ => True
  end ->
  snd (TB.alignIndicator show hasEl buttons i) = None.
Proof.
  intro Hi. unfold TB.alignIndicator.
  destruct (negb show || negb hasEl); [reflexivity|].
  assert (E : TB.buttonAt buttons (floor i) = None).
  { destruct i as [q| | |]; try reflexivity. cbn [floor].
    destruct Hi as [Hi|Hi].
    - unfold TB.buttonAt. rewrite Qfloor_Z, Qeq_bool_refl.
      destruct (Z.leb_spec 0 (Qfloor q)) as [h|h]; [|reflexivity].
      exfalso. assert (0 <= q); [|lra].
      apply Qle_trans with (inject_Z (Qfloor q)); [|apply Qfloor_le].
      change 0 with (inject_Z 0). rewrite <- Zle_Qle. exact h.
    - assert (h : (Z.of_nat (length buttons) <= Qfloor q)%Z).
      { rewrite <- (Qfloor_Z (Z.of_nat (length buttons))). apply Qfloor_resp_le. exact Hi. }
      rewrite buttonAt_int by lia. apply nth_error_None. lia. }
  rewrite E. reflexivity.
Qed.

(* ------------------------------------------------------------------ *)
(** ** The toolbar: the indicator and the buttons container *)

Lemma Qfloor_lt_inv (a b : Q) :
  Qle_bool (inject_Z (Qfloor b)) (inject_Z (Qfloor a)) = false -> a < b.
Proof.
  intro E. apply Qle_bool_false in E. rewrite <- Zlt_Qlt in E.
  pose proof (Qlt_floor a). pose proof (Qfloor_le b).
  assert (inject_Z (Qfloor a + 1) <= inject_Z (Qfloor b)) by (rewrite <- Zle_Qle; lia).
  lra.
Qed.

(** X20: when the indicator (position [ip >= 0], width [iw]) is not
    wider than the buttons container ([mw], scrolled to [sp >= 0]),
    every offset [adjustContainerScroll] scrolls to centres the
    indicator in the container, or is [0] when centring would need a
    negative offset; its third case, [ip - mw + iw], is never taken. *)
Theorem adjustContainerScroll_centres (ip iw mw sp : Q) (p : num) :
  0 <= ip -> 0 <= sp -> iw <= mw ->
  TB.adjustContainerScroll true (Fin ip) (Fin iw) (Fin mw) (Fin sp) = Some p ->
  exists q, p = Fin q /\ 0 <= q /\
    (q == ip + iw / 2 - mw / 2 \/ (q == 0 /\ ip + iw / 2 - mw / 2 <= 0)).
Proof.
  intros Hip Hsp Hw H. unfold TB.adjustContainerScroll in H. cbn [negb] in H.
  change (div (Fin mw) (Fin 2)) with (Fin (mw / 2)) in H.
  change (div (Fin iw) (Fin 2)) with (Fin (iw / 2)) in H.
  cbn [sub add neg floor ltb max isNaN orb] in H.
  unfold Qdiv in *. change (/ 2) with (1 # 2) in *.
  destruct (Qle_bool (inject_Z (Qfloor (ip + iw + (mw * (1 # 2) + - (iw * (1 # 2))))))
              (inject_Z (Qfloor (mw + sp)))) eqn:E1; cbn [negb] in H.
  - destruct (Qle_bool sp _) eqn:E2; cbn [negb] in H; [discriminate|].
    destruct (Qle_bool 0 (ip + - (mw * (1 # 2) + - (iw * (1 # 2))))) eqn:E3;
      cbn [negb] in H.
    + apply Qle_bool_iff in E3.
      assert (Hle : Qle_bool (ip + - (mw * (1 # 2) + - (iw * (1 # 2)))) ip = true)
        by (apply Qle_bool_iff; lra).
      rewrite Hle in H. cbn [negb] in H. injection H as <-.
      eexists. split; [reflexivity|]. split; [exact E3|]. left. ring.
    + apply Qle_bool_false in E3.
      assert (Hle : Qle_bool 0 ip = true) by (apply Qle_bool_iff; exact Hip).
      rewrite Hle in H. cbn [negb] in H. injection H as <-.
      exists 0. split; [reflexivity|]. split; [apply Qle_refl|].
      right. split; [reflexivity | lra].
  - apply Qfloor_lt_inv in E1. injection H as <-.
    eexists. split; [reflexivity|]. split; [lra | left; ring].
Qed.

(* ------------------------------------------------------------------ *)
(** ** The container: moving to a tab *)

Lemma moveContainerByIndex_no_scrollTop (c : Container) (i : num) (an : bool) :
  ~ In ScrollActiveTabToTop (moveContainerByIndex c i an).
Proof.
  unfold moveContainerByIndex, moveContainer. destruct (_ && _); cbn; [tauto|].
  intros [H|H]; [discriminate | exact H].
Qed.

(** X21: [setActiveTabIndex] scrolls the active tab to the top exactly
    when it is asked for the index that is already active and
    [autoScrollTop] is on; asked for the active index with
    [autoScrollTop] off, it does nothing at all. *)
Theorem setActiveTabIndex_scrollTop (c : Container) (cfg : SuperTabsConfig) (i : num)
    (mv an : bool) :
  config c = Some cfg ->
  let same := match _activeTabIndex c with Some a => strict_eq a i | None => false end in
  exists c' effs, setActiveTabIndex c i mv an = Some (c', effs) /\
    (In ScrollActiveTabToTop effs <-> same = true /\ autoScrollTop c = true) /\
    (same = true -> autoScrollTop c = false -> c' = c /\ effs = []).
Proof.
  intros Hc same. unfold setActiveTabIndex, updateActiveTabIndex.
  cbn [config set_activeTabIndex]. rewrite Hc. fold same.
  assert (Hm : ~ In ScrollActiveTabToTop (if mv then moveContainerByIndex c i an else [])).
  { destruct mv; [apply moveContainerByIndex_no_scrollTop | intros []]. }
  destruct same, (autoScrollTop c); cbn [andb negb].
  - do 2 eexists. split; [reflexivity|]. split; [|discriminate].
    split; [intros _; split; reflexivity | intros _; left; reflexivity].
  - do 2 eexists. split; [reflexivity|]. split; [|split; reflexivity].
    split; [intros [] | intros [_ H]; discriminate].
  - do 2 eexists. split; [reflexivity|]. split; [|discriminate].
    cbn [snd app]. rewrite app_nil_r.
    split; [intro H; contradiction | intros [H _]; discriminate].
  - do 2 eexists. split; [reflexivity|]. split; [|discriminate].
    cbn [snd app]. rewrite app_nil_r.
    split; [intro H; contradiction | intros [H _]; discriminate].
Qed.




(** X24: once [onTouchEnd] has run on a container with swiping
    enabled, clicks are let through again ([onClick] does not swallow
    them). *)
Theorem onTouchEnd_releases_clicks (c : Container) (coords : STCoord) (now : num)
    (c' : Container) (effs : list effect) :
  swipeEnabled c = true -> onTouchEnd c coords now = Some (c', effs) ->
  onClick c' = false.
Proof.
  intros Hs H. destruct (isDragging c) eqn:Hd.
  - destruct (onTouchEnd_commit_shape c coords now c' effs Hs Hd H)
      as [v [e2 [_ [_ [_ [_ [Hd' _]]]]]]].
    exact Hd'.
  - unfold onTouchEnd in H. rewrite Hs, Hd in H. cbn [negb orb] in H.
    injection H as <- _. exact Hd.
Qed.

(* ------------------------------------------------------------------ *)
(** ** The toolbar: dragging the buttons *)

(** X25: a drag of the buttons that the toolbar captured, released
    quickly close to its start and off the buttons, takes the early
    [return] of [touchend]: [isDragging] stays [true], so the next touch
    scrolls the buttons on its first [touchmove] without the gesture
    check. *)
Theorem toolbar_drag_stays_captured (s : TB.ToolbarState) (cfg : TB.ToolbarConfig)
    (ic : STCoord) (lx : num) (coords1 coords2 coords3 coords4 : STCoord) (t1 t2 : num) :
  TB.scrollable s = true -> TB.tb_initialCoords s = Some ic -> TB.tb_lastPosX s = Some lx ->
  TB.tb_config s = Some cfg ->
  ltb (TB.lastClickTs s) (TB.touchStartTs s) = true ->
  leb (sub t1 (TB.touchStartTs s)) (Fin 150) = true ->
  ltb (abs (sub (x coords2) (x ic))) (TB.dragThreshold cfg) = true ->
  ltb (x coords3) (TB.leftThreshold s) = false ->
  ltb (sub (TB.tb_width s) (TB.rightThreshold s)) (x coords3) = false ->
  strict_eq (sub (x coords3) (x coords4)) (Fin 0) = false ->
  let s1 := fst (TB.onTouchMove s true coords1 true) in
  let (s2, evs) := TB.onTouchEnd s1 coords2 TB.TgtToolbar t1 in
  evs = [] /\ TB.tb_isDragging s2 = Some true /\
  snd (TB.onTouchMove (TB.onTouchStart s2 coords3 t2) true coords4 false) =
    Some (sub (x coords3) (x coords4)).
Proof.
  intros Hsc Hic Hlx Hc Hlc Ht1 Hdt Hl Hr Hne s1.
  assert (Hs1 : TB.tb_initialCoords s1 = Some ic /\ TB.touchStartTs s1 = TB.touchStartTs s /\
                TB.lastClickTs s1 = TB.lastClickTs s /\ TB.tb_config s1 = Some cfg /\
                TB.tb_isDragging s1 = Some true /\ TB.scrollable s1 = true /\
                TB.leftThreshold s1 = TB.leftThreshold s /\
                TB.rightThreshold s1 = TB.rightThreshold s /\ TB.tb_width s1 = TB.tb_width s).
  { subst s1. unfold TB.onTouchMove. rewrite Hsc, Hic, Hlx, Hc. cbn [negb orb].
    destruct (TB.tb_isDragging s) as [[|]|] eqn:Ed;
      destruct (strict_eq (sub lx (x coords1)) (Fin 0));
      cbn; repeat split; assumption. }
  destruct Hs1 as [E1 [E2 [E3 [E4 [E5 [E6 [E7 [E8 E9]]]]]]]].
  unfold TB.onTouchEnd. rewrite E2, E3, Hlc, Ht1. cbn [andb]. rewrite E1, E4.
  cbn [TB.dragThreshold]. rewrite Hdt. cbn [TB.getButtonFromEv].
  split; [reflexivity|]. split; [exact E5|].
  unfold TB.onTouchStart. rewrite E6, E7, E8, E9, Hl, Hr. cbn [negb orb].
  unfold TB.onTouchMove. cbn [TB.set_touch TB.scrollable TB.tb_initialCoords TB.tb_lastPosX
    TB.tb_isDragging negb orb]. rewrite E6, E5. cbn [negb]. rewrite Hne. reflexivity.
Qed.

(* ------------------------------------------------------------------ *)
(** ** Instances of the theorems above on concrete inputs *)

Ltac close_concrete :=
  first [ reflexivity | discriminate | lia | lra
        | apply Qle_bool_iff; reflexivity ].

Lemma toolbar_setActiveTab_in_range_witness :
  exists z q, tb_activeTabIndex (setActiveTab (mkToolbar (Fin 0) 3) (Fin (7 # 2)) true true)
                = Fin q /\ q == inject_Z z /\ (0 <= z <= Z.max 0 (Z.of_nat 3 - 1))%Z.
Proof. exact (toolbar_setActiveTab_in_range (mkToolbar (Fin 0) 3) (Fin (7 # 2)) true true
                eq_refl). Defined.

Lemma easeInOutCubic_monotone_unit_witness :
  exists e1 e2, easeInOutCubic (Fin (1 # 4)) = Fin e1 /\
    easeInOutCubic (Fin (3 # 4)) = Fin e2 /\ 0 <= e1 /\ e1 <= e2 /\ e2 <= 1 /\
    easeInOutCubic (Fin 0) = Fin 0 /\ easeInOutCubic (Fin 1) = Fin 1.
Proof. apply easeInOutCubic_monotone_unit; close_concrete. Defined.

Lemma getScrollCoord_between_witness :
  exists v, getScrollCoord (Fin 0) (Fin 100) (Fin 0) (Fin 50) (Fin 100)
              = Fin (inject_Z (Qceiling v)) /\
    ((0 <= v <= 100) \/ (100 <= v <= 0)) /\ (0 + 100 <= 50 -> v == 100).
Proof. apply getScrollCoord_between; close_concrete. Defined.

Lemma scrollEl_animated_lands_witness :
  exists ps,
    scrollEl true (Fin 0) (Fin 100) false (Fin 100) (Fin 0) (map Fin ([50] ++ 200 :: []))
    = map ScrollToX (ps ++ [if Qeq_bool 0 100 then Fin 100
                            else Fin (inject_Z (Qceiling 100))]) /\
    length ps = length [50].
Proof.
  apply scrollEl_animated_lands; try close_concrete.
  constructor; [close_concrete | constructor].
Defined.

Lemma onTouchEnd_commits_tab_index_witness :
  exists c' effs,
    onTouchEnd dragging_container (mkCoord (Fin 100) (Fin 0)) (Fin 150) = Some (c', effs) /\
    exists z e2, (0 <= z <= 4 - 1)%Z /\
      _activeTabIndex c' = Some (Fin (inject_Z z)) /\
      effs = ActiveTabIndexChange (Fin (inject_Z z)) :: e2 /\
      forallb (fun e => negb (is_active_change e)) e2 = true.
Proof.
  destruct (onTouchEnd dragging_container (mkCoord (Fin 100) (Fin 0)) (Fin 150))
    as [[c' effs]|] eqn:E; [|vm_compute in E; discriminate].
  exists c', effs. split; [reflexivity|].
  apply (onTouchEnd_commits_tab_index dragging_container (mkCoord (Fin 100) (Fin 0))
           (Fin 150) (inject_Z 3750000 / 10000) 4 c' effs);
    first [exact E | close_concrete].
Defined.

Lemma onTouchMove_preview_in_range_witness :
  exists c' effs,
    onTouchMove dragging_container (mkCoord (Fin 60) (Fin 0)) true = Some (c', effs) /\
    _activeTabIndex c' = _activeTabIndex dragging_container /\
    Forall (fun e => match e with
                     | SelectedTabIndexChange v =>
                         exists q, v = Fin q /\ 0 <= q <= inject_Z (4 - 1)
                     | ScrollTo s an =>
                         an = false /\ exists p, s = Fin p /\
                           0 <= p <= inject_Z (4 - 1) * (inject_Z 3750000 / 10000)
                     | _ => False
                     end) effs.
Proof.
  destruct (onTouchMove dragging_container (mkCoord (Fin 60) (Fin 0)) true)
    as [[c' effs]|] eqn:E; [|vm_compute in E; discriminate].
  exists c', effs. split; [reflexivity|].
  apply (onTouchMove_preview_in_range dragging_container (mkCoord (Fin 60) (Fin 0)) true
           (inject_Z 3750000 / 10000) 60 4 c' effs);
    first [exact E | close_concrete | intros lx H; injection H as <-; reflexivity].
Defined.

Lemma touch_handlers_keep_gesture_consistent_witness :
  exists c' effs,
    onTouchEnd dragging_container (mkCoord (Fin 100) (Fin 0)) (Fin 150) = Some (c', effs) /\
    gesture_consistent c' = true.
Proof.
  destruct (onTouchEnd dragging_container (mkCoord (Fin 100) (Fin 0)) (Fin 150))
    as [[c' effs]|] eqn:E; [|vm_compute in E; discriminate].
  exists c', effs. split; [reflexivity|].
  apply (proj1 (proj2 (proj2 touch_handlers_keep_gesture_consistent))
           dragging_container (mkCoord (Fin 100) (Fin 0)) (Fin 150) c' effs);
    first [exact E | reflexivity].
Defined.

Lemma swipe_disabled_mid_drag_swallows_clicks_witness :
  onClick (set_swipeEnabled dragging_container false) = true.
Proof.
  apply (swipe_disabled_mid_drag_swallows_clicks dragging_container eq_refl).
Defined.

Lemma onTouchMove_vertical_abandon_witness :
  exists c1, onTouchMove touched_container (mkCoord (Fin 205) (Fin 150)) false = Some (c1, []) /\
    (forall coords' g, onTouchMove c1 coords' g = Some (c1, [])) /\
    (forall coords' now, onTouchEnd c1 coords' now = Some (c1, [])).
Proof.
  apply (onTouchMove_vertical_abandon touched_container (mkCoord (Fin 205) (Fin 150))
           (mkCoord (Fin 200) (Fin 0)) (Fin 200) (mkConfig false false (Fin 300)));
    reflexivity.
Defined.

Lemma onToolbarButtonClick_syncs_witness :
  exists c' a,
    onToolbarButtonClick (root_of touched_container) (Fin 2) =
      ({| activeTabIndex := Fin 2; container := Some c';
          toolbar := toolbar (root_of touched_container) |},
       [mkDetail (negb (strict_eq (Fin 2) (activeTabIndex (root_of touched_container)))) (Fin 2)])
    /\ _activeTabIndex c' = Some a /\ strict_eq a (Fin 2) = true.
Proof.
  apply (onToolbarButtonClick_syncs (root_of touched_container) touched_container
           (mkConfig false false (Fin 300)) (Fin 2)); reflexivity.
Defined.

Lemma onTouchEnd_dispatch_root_witness :
  exists c' effs,
    onTouchEnd dragging_container (mkCoord (Fin 100) (Fin 0)) (Fin 150) = Some (c', effs) /\
    exists z, (0 <= z <= 4 - 1)%Z /\
      dispatch (set_container (root_of dragging_container) c') effs =
        ({| activeTabIndex := Fin (inject_Z z); container := Some c';
            toolbar := option_map (fun t => setActiveTab t (Fin (inject_Z z)) true true)
                         (toolbar (root_of dragging_container)) |},
         [mkDetail (negb (strict_eq (Fin (inject_Z z))
                            (activeTabIndex (root_of dragging_container))))
                   (Fin (inject_Z z))]) /\
      (forall t, toolbar (root_of dragging_container) = Some t ->
         (4 <= Z.of_nat (buttonCount t))%Z ->
         option_map (fun t => setActiveTab t (Fin (inject_Z z)) true true)
           (toolbar (root_of dragging_container)) =
         Some {| tb_activeTabIndex := Fin (inject_Z z); buttonCount := buttonCount t |}).
Proof.
  destruct (onTouchEnd dragging_container (mkCoord (Fin 100) (Fin 0)) (Fin 150))
    as [[c' effs]|] eqn:E; [|vm_compute in E; discriminate].
  exists c', effs. split; [reflexivity|].
  apply (onTouchEnd_dispatch_root (root_of dragging_container) dragging_container
           (mkCoord (Fin 100) (Fin 0)) (Fin 150) (inject_Z 3750000 / 10000) 4 c' effs);
    first [exact E | close_concrete].
Defined.

Lemma toolbar_quick_tap_single_click_witness :
  let (s2, e1) := TB.onTouchEnd (TB.onTouchStart toolbar_state (mkCoord (Fin 100) (Fin 50))
                                   (Fin 1000))
                    (mkCoord (Fin 105) (Fin 50)) (TB.TgtButton 1) (Fin 1100) in
  e1 = [1%nat] /\ (forall tgt, TB.onClick s2 tgt (Fin 1120) = (s2, [])) /\
  TB.tb s2 = setActiveTab (TB.tb toolbar_state) (Fin (inject_Z (Z.of_nat 1))) true true /\
  TB.tb_initialCoords s2 = None /\ TB.tb_isDragging s2 = Some false.
Proof.
  apply (toolbar_quick_tap_single_click toolbar_state (TB.mkToolbarConfig None (Fin 0) (Fin 10))
           (mkCoord (Fin 100) (Fin 50)) (mkCoord (Fin 105) (Fin 50)) 1
           (Fin 1000) (Fin 1100) (Fin 1120)); reflexivity.
Defined.

Lemma toolbar_late_click_emits_twice_witness :
  let (s2, e1) := TB.onTouchEnd (TB.onTouchStart toolbar_state (mkCoord (Fin 100) (Fin 50))
                                   (Fin 1000))
                    (mkCoord (Fin 105) (Fin 50)) (TB.TgtButton 1) (Fin 1100) in
  e1 ++ snd (TB.onClick s2 (Some (TB.TgtButton 1)) (Fin 1200)) = [1%nat; 1%nat].
Proof.
  apply (toolbar_late_click_emits_twice toolbar_state (TB.mkToolbarConfig None (Fin 0) (Fin 10))
           (mkCoord (Fin 100) (Fin 50)) (mkCoord (Fin 105) (Fin 50)) 1
           (Fin 1000) (Fin 1100) (Fin 1200)); reflexivity.
Defined.

Lemma toolbar_sideMenu_zone_ignored_witness :
  TB.onTouchStart (TB.updateThresholds toolbar_state_left_menu) (mkCoord (Fin 20) (Fin 50))
    (Fin 2000) = TB.updateThresholds toolbar_state_left_menu.
Proof.
  apply (toolbar_sideMenu_zone_ignored toolbar_state_left_menu
           (TB.mkToolbarConfig (Some TB.SideLeft) (Fin 50) (Fin 10))); reflexivity.
Defined.

Lemma alignIndicator_integer_witness :
  TB.alignIndicator true true three_buttons (Fin (inject_Z 1)) =
  (Some false, Some (TB.mkIndicatorFrame (Fin 80) (Fin 120) false)).
Proof.
  apply (alignIndicator_integer three_buttons 1 (TB.mkButton (Fin 80) (Fin 120)));
    close_concrete.
Defined.

Lemma alignIndicator_fraction_witness :
  exists p wd,
    TB.alignIndicator true true three_buttons (Fin (3 # 2)) =
      (Some true, Some (TB.mkIndicatorFrame (Fin p) (Fin wd) true)) /\
    p == 80 + ((3 # 2) - inject_Z (Qfloor (3 # 2))) * (200 - 80) /\
    wd == 120 + ((3 # 2) - inject_Z (Qfloor (3 # 2))) * (100 - 120) /\
    0 < (3 # 2) - inject_Z (Qfloor (3 # 2)) < 1.
Proof.
  apply (alignIndicator_fraction three_buttons (3 # 2) (TB.mkButton (Fin 80) (Fin 120))
           (TB.mkButton (Fin 200) (Fin 100)));
    first [reflexivity | discriminate | intro H; discriminate H].
Defined.

Lemma alignIndicator_out_of_range_witness :
  snd (TB.alignIndicator true true three_buttons (Fin (-1))) = None.
Proof. apply alignIndicator_out_of_range. left. reflexivity. Defined.

Lemma adjustContainerScroll_centres_witness :
  exists p, TB.adjustContainerScroll true (Fin 300) (Fin 100) (Fin 200) (Fin 0) = Some p /\
    exists q, p = Fin q /\ 0 <= q /\
      (q == 300 + 100 / 2 - 200 / 2 \/ (q == 0 /\ 300 + 100 / 2 - 200 / 2 <= 0)).
Proof.
  destruct (TB.adjustContainerScroll true (Fin 300) (Fin 100) (Fin 200) (Fin 0))
    as [p|] eqn:E; [|vm_compute in E; discriminate].
  exists p. split; [reflexivity|].
  apply (adjustContainerScroll_centres 300 100 200 0 p); first [exact E | close_concrete].
Defined.

Lemma setActiveTabIndex_scrollTop_witness :
  exists c' effs, setActiveTabIndex touched_container (Fin 0) true true = Some (c', effs) /\
    (In ScrollActiveTabToTop effs <->
       (match _activeTabIndex touched_container with
        | Some a => strict_eq a (Fin 0) | None => false end) = true /\
       autoScrollTop touched_container = true) /\
    ((match _activeTabIndex touched_container with
      | Some a => strict_eq a (Fin 0) | None => false end) = true ->
     autoScrollTop touched_container = false -> c' = touched_container /\ effs = []).
Proof.
  exact (setActiveTabIndex_scrollTop touched_container (mkConfig false false (Fin 300))
           (Fin 0) true true eq_refl).
Defined.



Lemma onTouchEnd_releases_clicks_witness :
  exists c' effs,
    onTouchEnd dragging_container (mkCoord (Fin 100) (Fin 0)) (Fin 150) = Some (c', effs) /\
    onClick c' = false.
Proof.
  destruct (onTouchEnd dragging_container (mkCoord (Fin 100) (Fin 0)) (Fin 150))
    as [[c' effs]|] eqn:E; [|vm_compute in E; discriminate].
  exists c', effs. split; [reflexivity|].
  apply (onTouchEnd_releases_clicks dragging_container (mkCoord (Fin 100) (Fin 0)) (Fin 150)
           c' effs); first [exact E | reflexivity].
Defined.

Lemma toolbar_drag_stays_captured_witness :
  let s1 := fst (TB.onTouchMove toolbar_state true (mkCoord (Fin 112) (Fin 52)) true) in
  let (s2, evs) := TB.onTouchEnd s1 (mkCoord (Fin 105) (Fin 50)) TB.TgtToolbar (Fin 1100) in
  evs = [] /\ TB.tb_isDragging s2 = Some true /\
  snd (TB.onTouchMove (TB.onTouchStart s2 (mkCoord (Fin 150) (Fin 50)) (Fin 2000)) true
         (mkCoord (Fin 140) (Fin 50)) false) =
    Some (sub (Fin 150) (Fin 140)).
Proof.
  apply (toolbar_drag_stays_captured toolbar_state (TB.mkToolbarConfig None (Fin 0) (Fin 10))
           (mkCoord (Fin 100) (Fin 50)) (Fin 100) (mkCoord (Fin 112) (Fin 52))
           (mkCoord (Fin 105) (Fin 50)) (mkCoord (Fin 150) (Fin 50))
           (mkCoord (Fin 140) (Fin 50)) (Fin 1100) (Fin 2000)); reflexivity.
Defined.
